(** * openderisk-cli: the chat client and its transport

    A shallow embedding of [openderisk_cli/exceptions.py],
    [openderisk_cli/client/http.py], [openderisk_cli/models/chat.py] and
    [openderisk_cli/client/chat.py], with the [send] command of
    [openderisk_cli/commands/chat.py] and the table cell of
    [openderisk_cli/utils/output.py], followed by the properties of the chat
    polling protocol, the transport's failures, and the facade operations.

    Python values that come from the server are kept dynamically typed
    ([json]); arguments are typed as their annotations say.  Wall-clock time
    is a rational number of seconds, and the network and the clock are an
    explicit [World] threaded through the code. *)

From Stdlib Require Import List String Ascii Bool ZArith QArith Lia Lqa.
From Stdlib Require Import DecimalString.
Import ListNotations.

Local Open Scope string_scope.
Local Open Scope Z_scope.

Set Warnings "-register-all".

(** ** Python values *)

Module Py.

(** What [json.loads] produces.  A dict is an association list in which the
    first binding of a key is the one the dict holds. *)
Inductive json : Type :=
| JNull
| JBool (b : bool)
| JInt (z : Z)
| JFloat (q : Q)
| JStr (s : string)
| JList (l : list json)
| JDict (d : list (string * json)).

(** [bool(v)]. *)
Definition truthy (v : json) : bool :=
  match v with
  | JNull => false
  | JBool b => b
  | JInt z => negb (z =? 0)
  | JFloat q => negb (Qeq_bool q 0)
  | JStr s => negb (s =? EmptyString)%string
  | JList l => match l with [] => false | _ => true end
  | JDict d => match d with [] => false | _ => true end
  end.

Fixpoint lookup (k : string) (d : list (string * json)) : option json :=
  match d with
  | [] => None
  | (k', v) :: d' => if (k =? k')%string then Some v else lookup k d'
  end.

(** The Python-level errors the modelled code can run into, next to the
    CLI's own exception classes ([exceptions.py]): [AttributeError] and
    [TypeError] on values of an unexpected shape, [ValueError] from
    [time.sleep], [UnicodeDecodeError] from the JSON parser, and rich's
    [MarkupError] from [console.print]. *)
Inductive exn_class : Type :=
| OpenDeriskError | ConfigError | APIError | ValidationError | TimeoutError
| AttributeError | TypeError | PydanticValidationError
| ValueError | UnicodeDecodeError | MarkupError.

Definition exn_class_eqb (a b : exn_class) : bool :=
  match a, b with
  | OpenDeriskError, OpenDeriskError | ConfigError, ConfigError
  | APIError, APIError | ValidationError, ValidationError
  | TimeoutError, TimeoutError | AttributeError, AttributeError
  | TypeError, TypeError | PydanticValidationError, PydanticValidationError
  | ValueError, ValueError | UnicodeDecodeError, UnicodeDecodeError
  | MarkupError, MarkupError => true
  | _, _ => false
  end.

(** [issubclass(a, b)] for the classes above: the five CLI classes form a
    two-level hierarchy under [OpenDeriskError], and [UnicodeDecodeError] is
    a [ValueError]. *)
Definition issubclass (a b : exn_class) : bool :=
  exn_class_eqb a b ||
  match a, b with
  | (ConfigError | APIError | ValidationError | TimeoutError), OpenDeriskError => true
  | UnicodeDecodeError, ValueError => true
  | _, _ => false
  end.

(** An exception object: [OpenDeriskError.__init__] stores [message],
    [details] and [suggestion]; [APIError.__init__] adds [status_code] and
    [response]. *)
Record exn : Type := mkExn {
  cls : exn_class;
  message : string;
  details : option string;
  suggestion : option string;
  status_code : option Z;
  response : json
}.

Definition isinstance (e : exn) (c : exn_class) : bool := issubclass (cls e) c.

(** [response or {}] in [APIError.__init__]. *)
Definition response_or_empty (r : option json) : json :=
  match r with
  | Some v => if truthy v then v else JDict []
  | None => JDict []
  end.

Definition mkAPIError (message : string) (status_code : option Z)
    (response : option json) (details suggestion : option string) : exn :=
  mkExn APIError message details suggestion status_code (response_or_empty response).

Definition mkTimeoutError (message : string) (details suggestion : option string) : exn :=
  mkExn TimeoutError message details suggestion None JNull.

Definition py_error (c : exn_class) (msg : string) : exn :=
  mkExn c msg None None None JNull.

(** A computation that returns or raises. *)
Definition result (A : Type) : Type := (exn + A)%type.

Definition bind {A B} (r : result A) (k : A -> result B) : result B :=
  match r with
  | inl e => inl e
  | inr a => k a
  end.

(** [obj.get(key, default)]: only a dict has [get]. *)
Definition get (obj : json) (key : string) (default : json) : result json :=
  match obj with
  | JDict d => inr (match lookup key d with Some v => v | None => default end)
  | _ => inl (py_error AttributeError "object has no attribute 'get'")
  end.

(** [obj[key]] on a dict the caller has already probed with [get]. *)
Definition getitem (obj : json) (key : string) : result json :=
  match obj with
  | JDict d => match lookup key d with
               | Some v => inr v
               | None => inl (py_error TypeError "KeyError")
               end
  | _ => inl (py_error TypeError "object is not subscriptable")
  end.

(** A [str] is held as its UTF-8 encoding: a character is a lead byte
    together with the continuation bytes (of the form 10xxxxxx) that follow
    it.  Iteration, [len] and slicing go by characters, not bytes. *)
Definition is_continuation (c : ascii) : bool :=
  match c with
  | Ascii _ _ _ _ _ _ b6 b7 => b7 && negb b6
  end.

Definition starts_inside (s : string) : bool :=
  match s with
  | String c _ => is_continuation c
  | EmptyString => false
  end.

(** The characters of a string, each as a string of its own: a byte that
    is followed by a continuation byte is joined to the character after
    it. *)
Fixpoint chars (s : string) : list json :=
  match s with
  | EmptyString => []
  | String c s' =>
      let rest := chars s' in
      if starts_inside s' then
        match rest with
        | JStr h :: t => JStr (String c h) :: t
        | _ => JStr (String c EmptyString) :: rest
        end
      else JStr (String c EmptyString) :: rest
  end.

(** [for item in v]: what iteration over a JSON value visits. *)
Definition iter (v : json) : result (list json) :=
  match v with
  | JList l => inr l
  | JDict d => inr (map (fun kv => JStr (fst kv)) d)
  | JStr s => inr (chars s)
  | _ => inl (py_error TypeError "object is not iterable")
  end.

(** Numbers compare by value across bool, int and float. *)
Definition as_number (v : json) : option Q :=
  match v with
  | JBool b => Some (if b then 1%Q else 0%Q)
  | JInt z => Some (inject_Z z)
  | JFloat q => Some q
  | _ => None
  end.

Definition hashable (v : json) : bool :=
  match v with
  | JList _ | JDict _ => false
  | _ => true
  end.

(** [a == b] on hashable values. *)
Definition eqb (a b : json) : bool :=
  match a, b with
  | JNull, JNull => true
  | JStr s, JStr t => (s =? t)%string
  | _, _ => match as_number a, as_number b with
            | Some x, Some y => Qeq_bool x y
            | _, _ => false
            end
  end.

(** [str(n)] for an int. *)
Definition str_of_int (n : Z) : string := NilZero.string_of_int (Z.to_int n).

(** [len(s)]. *)
Fixpoint len (s : string) : nat :=
  match s with
  | EmptyString => O
  | String c s' => if is_continuation c then len s' else S (len s')
  end.

(** [s[:n]]: the first [n] characters of [s], all of [s] when it has
    fewer. *)
Fixpoint slice_to (n : nat) (s : string) : string :=
  match s with
  | EmptyString => EmptyString
  | String c s' =>
      if is_continuation c then String c (slice_to n s')
      else match n with
           | O => EmptyString
           | S m => String c (slice_to m s')
           end
  end.

End Py.

Import Py.

(** ** The transport: [client/http.py] *)

Module Http.

(** What the HTTP library hands back for one request: a connection-level
    failure ([httpx.RequestError], with its text), or a response, of which
    the code reads the status, the body as bytes ([response.content]) and the
    body as text ([response.text]). *)
Record Response : Type := mkResponse {
  resp_status : Z;
  resp_content : string;
  resp_text : string
}.

Inductive wire : Type :=
| RequestError (descr : string)
| Responded (r : Response).

(** How [response.json()] ends on a body: with the parsed value, with
    [JSONDecodeError] for a body that is text but not JSON, or with
    [UnicodeDecodeError] for a body that is not text in the encoding the
    parser detects. *)
Inductive parsing : Type :=
| Loaded (v : json)
| NotJSON
| NotUnicode (reason : string).

(** [response.raise_for_status()] lets exactly the 2xx codes through. *)
Definition is_success (r : Response) : bool :=
  (200 <=? resp_status r) && (resp_status r <=? 299).

Section Transport.

(** [json.loads] on the bytes of a body. *)
Variable json_loads : string -> parsing.
(** [str(e)] of the [httpx.HTTPStatusError] raised for a response. *)
Variable status_error_str : Response -> string.

(** [_safe_parse_json] (http.py 112-117): [except Exception] catches both
    ways the parser can fail. *)
Definition _safe_parse_json (r : Response) : json :=
  match json_loads (resp_content r) with
  | Loaded v => v
  | NotJSON | NotUnicode _ => JDict [("text", JStr (resp_text r))]
  end.

(** The text after [Response content: ] in the details of the decode
    failure: [response.text[:200] if response.text else 'empty']. *)
Definition content_excerpt (r : Response) : string :=
  if (resp_text r =? EmptyString)%string then "empty"
  else slice_to 200 (resp_text r).

(** [_make_request] (http.py 48-110), as a function of what the HTTP
    library returned for the request.  Of the parser's two failures only
    [JSONDecodeError] has a handler (http.py 88); [UnicodeDecodeError] is
    none of the three classes caught and leaves the function as it is. *)
Definition _make_request (w : wire) : result json :=
  match w with
  | Responded r =>
      if is_success r then
        (* resp = response.json() if response.content else {} *)
        if (resp_content r =? EmptyString)%string then inr (JDict [])
        else match json_loads (resp_content r) with
             | Loaded resp => inr resp
             | NotJSON =>
                 inl (mkAPIError "Server returned invalid JSON response"
                        None None
                        (Some ("Response content: " ++ content_excerpt r))
                        (Some "Please check if the server is running properly"))
             | NotUnicode reason => inl (py_error UnicodeDecodeError reason)
             end
      else
        (* except httpx.HTTPStatusError *)
        inl (mkAPIError ("API request failed: " ++ str_of_int (resp_status r))
               (Some (resp_status r))
               (Some (_safe_parse_json r))
               (Some (status_error_str r))
               (Some "Check your request parameters and try again"))
  | RequestError descr =>
      (* except httpx.RequestError *)
      inl (mkAPIError "Network error" None None (Some descr)
             (Some "Check your network connection and try again"))
  end.

End Transport.

End Http.

(** ** The world: clock and network *)

Module World.

(** One call of the HTTP client ([http_client.get] or [http_client.post]). *)
Record request : Type := mkRequest {
  rq_method : string;
  rq_path : string;
  rq_params : list (string * json);
  rq_json : option json
}.

(** What the network will do with the next call: how long the call takes,
    and what [_make_request] gives back, a parsed body or a raised error. *)
Record exchange : Type := mkExchange {
  took : Q;
  answer : result json
}.

Inductive event : Type :=
| Called (rq : request) (arrived : Q) (r : result json)
| Slept (d : Q)
| ReadClock (t : Q).

(** The clock, and what has happened so far, latest event first. *)
Record world : Type := mkWorld {
  now : Q;
  trace : list event
}.

(** [time.time()]. *)
Definition time_time (w : world) : Q * world :=
  (now w, mkWorld (now w) (ReadClock (now w) :: trace w)).

(** [a < b] on rationals, as a boolean. *)
Definition Qltb (a b : Q) : bool := negb (Qle_bool b a).

(** The world after a sleep of [d] seconds. *)
Definition slept (d : Q) (w : world) : world :=
  mkWorld (now w + d) (Slept d :: trace w).

Definition negative_sleep : exn :=
  py_error ValueError "sleep length must be non-negative".

(** [time.sleep(d)]: a negative length raises [ValueError] at once. *)
Definition time_sleep (d : Q) (w : world) : result world :=
  if Qltb d 0 then inl negative_sleep else inr (slept d w).

(** One call of the HTTP client, answered by the exchange [x]. *)
Definition http_call (rq : request) (x : exchange) (w : world) : result json * world :=
  (answer x, mkWorld (now w + took x) (Called rq (now w + took x) (answer x) :: trace w)).

Definition http_get (path : string) (params : list (string * json)) :=
  http_call (mkRequest "GET" path params None).

Definition http_post (path : string) (params : list (string * json)) (body : option json) :=
  http_call (mkRequest "POST" path params body).

Definition is_call_to (method path : string) (e : event) : bool :=
  match e with
  | Called rq _ _ => (rq_method rq =? method)%string && (rq_path rq =? path)%string
  | _ => false
  end.

(** The calls made to an endpoint, oldest first, and how many there were. *)
Definition calls_to (method path : string) (w : world) : list event :=
  filter (is_call_to method path) (rev (trace w)).

Definition attempts (method path : string) (w : world) : nat :=
  List.length (calls_to method path w).

End World.

Import World.

(** ** The request model: [models/chat.py] *)

Module Models.

(** [ChatCompletionRequest] (models/chat.py 8-31). *)
Record ChatCompletionRequest : Type := mkChatCompletionRequest {
  conv_uid : option string;
  user_input : string;
  messages : option (list json);
  app_code : option string;
  app_config_code : option string;
  team_mode : option string;
  user_name : option string;
  sys_code : option string;
  temperature : option Q;
  max_new_tokens : option Z;
  model_name : option string;
  incremental : bool;
  select_param : option json;
  prompt_code : option string;
  chat_in_params : option (list json);
  ext_info : option json;
  work_mode : option string
}.

Definition field {A : Type} (key : string) (to_json : A -> json) (v : option A)
  : list (string * json) :=
  match v with
  | Some a => [(key, to_json a)]
  | None => []
  end.

(** [request.model_dump(exclude_none=True)]: the fields that are not [None],
    in declaration order. *)
Definition model_dump (r : ChatCompletionRequest) : json :=
  JDict (field "conv_uid" JStr (conv_uid r)
         ++ [("user_input", JStr (user_input r))]
         ++ field "messages" JList (messages r)
         ++ field "app_code" JStr (app_code r)
         ++ field "app_config_code" JStr (app_config_code r)
         ++ field "team_mode" JStr (team_mode r)
         ++ field "user_name" JStr (user_name r)
         ++ field "sys_code" JStr (sys_code r)
         ++ field "temperature" JFloat (temperature r)
         ++ field "max_new_tokens" JInt (max_new_tokens r)
         ++ field "model_name" JStr (model_name r)
         ++ [("incremental", JBool (incremental r))]
         ++ field "select_param" (fun v => v) (select_param r)
         ++ field "prompt_code" JStr (prompt_code r)
         ++ field "chat_in_params" JList (chat_in_params r)
         ++ field "ext_info" (fun v => v) (ext_info r)
         ++ field "work_mode" JStr (work_mode r)).

End Models.

(** ** The chat client: [client/chat.py] *)

Module Chat.

(** The arguments of [chat_completions]. *)
Record args : Type := mkArgs {
  user_input : string;
  conv_uid : option string;
  app_code : option string;
  model_name : option string;
  temperature : option Q;
  max_new_tokens : option Z;
  incremental : bool;
  user_name : option string;
  messages : option (list json);
  timeout : Z;
  max_retries : Z;
  initial_delay : Q
}.

(** The signature's defaults (chat.py 22-36). *)
Definition default_args (user_input : string) : args :=
  mkArgs user_input None None None None None true None None 300 10 2.

(** [user_name or "cli_user"]. *)
Definition user_name_or_default (user_name : option string) : string :=
  match user_name with
  | Some s => if (s =? EmptyString)%string then "cli_user" else s
  | None => "cli_user"
  end.

(** The request built at chat.py 56-73.  [ext_info] is not passed, so it
    takes its default, an empty dict. *)
Definition build_request (a : args) : Models.ChatCompletionRequest :=
  Models.mkChatCompletionRequest
    (conv_uid a)
    (user_input a)
    (messages a)
    (app_code a)
    None
    None
    (Some (user_name_or_default (user_name a)))
    None
    (temperature a)
    (max_new_tokens a)
    (model_name a)
    (incremental a)
    None
    None
    None
    (Some (JDict []))
    (Some "async").

(** What a drained generator has done: the chunks it yielded, in order,
    ending in a normal return or a raised exception.  [Unfinished] ends a
    run whose next HTTP call the recorded network has no answer for. *)
Inductive gen : Type :=
| Yield (chunk : json) (rest : gen)
| Return
| Raise (e : exn)
| Unfinished.

Fixpoint chunks (g : gen) : list json :=
  match g with
  | Yield c rest => c :: chunks rest
  | _ => []
  end.

Fixpoint ending (g : gen) : gen :=
  match g with
  | Yield _ rest => ending rest
  | _ => g
  end.

Definition query_failed (query_response : json) : exn :=
  mkAPIError "Failed to query chat status" None (Some query_response) None None.

Definition submit_failed (response : json) : exn :=
  mkAPIError "Failed to submit chat" None (Some response) None None.

Definition timed_out (timeout : Z) : exn :=
  mkTimeoutError "Chat timed out" None
    (Some ("The chat did not complete within " ++ str_of_int timeout ++ " seconds.")).

(** The polling loop (chat.py 97-126).  Each turn reads the clock for the
    loop test and, if the test passes, uses up one exchange of the
    network. *)
Fixpoint poll_loop (timeout max_retries : Z) (conv_id : json) (start_time : Q)
    (network : list exchange) (retry_count : Z) (w : world) : gen * world :=
  let (t, w) := time_time w in
  if Qltb (t - start_time) (inject_Z timeout) then
    match network with
    | [] => (Unfinished, w)
    | x :: network =>
      let (r, w) := http_get "/api/v1/chat/query" [("conv_id", conv_id)] x w in
      match r with
      | inl e => (Raise e, w)
      | inr query_response =>
        match get query_response "success" JNull with
        | inl e => (Raise e, w)
        | inr success =>
          if negb (truthy success) then
            match get query_response "code" (JStr EmptyString) with
            | inl e => (Raise e, w)
            | inr error_code =>
              if eqb error_code (JStr "E0103") && (retry_count <? max_retries) then
                match time_sleep 1 w with
                | inl e => (Raise e, w)
                | inr w =>
                    poll_loop timeout max_retries conv_id start_time network
                      (retry_count + 1) w
                end
              else (Raise (query_failed query_response), w)
            end
          else
            match get query_response "data" (JDict []) with
            | inl e => (Raise e, w)
            | inr query_data =>
              match get query_data "is_final" (JBool false) with
              | inl e => (Raise e, w)
              | inr is_final =>
                match get query_data "user_answer" (JStr EmptyString) with
                | inl e => (Raise e, w)
                | inr user_answer =>
                  if truthy is_final then
                    if truthy user_answer then (Yield user_answer Return, w)
                    else (Return, w)
                  else
                    match time_sleep 1 w with
                    | inl e => (Raise e, w)
                    | inr w =>
                        poll_loop timeout max_retries conv_id start_time network
                          retry_count w
                    end
                end
              end
            end
        end
      end
    end
  else (Raise (timed_out timeout), w).

(** [chat_completions] (chat.py 22-126), drained. *)
Definition chat_completions (a : args) (network : list exchange) (w : world)
  : gen * world :=
  let request := build_request a in
  let body := Models.model_dump request in
  match network with
  | [] => (Unfinished, w)
  | x :: network =>
    let (r, w) := http_post "/api/v1/chat/completions" [] (Some body) x w in
    match r with
    | inl e => (Raise e, w)
    | inr response =>
      match get response "success" JNull with
      | inl e => (Raise e, w)
      | inr success =>
        if negb (truthy success) then
          (Raise (submit_failed response), w)
        else
          match get response "data" (JDict []) with
          | inl e => (Raise e, w)
          | inr data =>
            match get data "conv_id" JNull with
            | inl e => (Raise e, w)
            | inr conv_id =>
              if negb (truthy conv_id) then
                (Raise (mkAPIError "No conv_id in response" None (Some response) None None), w)
              else
                match time_sleep (initial_delay a) w with
                | inl e => (Raise e, w)
                | inr w =>
                    let retry_count := 0 in
                    let (start_time, w) := time_time w in
                    poll_loop (timeout a) (max_retries a) conv_id start_time
                      network retry_count w
                end
            end
          end
      end
    end
  end.

(** [str.join] with the empty separator: every element must be a str. *)
Fixpoint join (result_chunks : list json) : result string :=
  match result_chunks with
  | [] => inr EmptyString
  | JStr s :: rest => bind (join rest) (fun t => inr (s ++ t))
  | _ :: _ => inl (py_error TypeError "sequence item: expected str instance")
  end.

(** The [for] loop of [chat_async] (chat.py 148-157): each chunk is appended
    to [result_chunks]. *)
Fixpoint collect (g : gen) (result_chunks : list json) : gen * list json :=
  match g with
  | Yield chunk rest => collect rest (result_chunks ++ [chunk])
  | _ => (g, result_chunks)
  end.

(** How a call that is not a generator ends. *)
Inductive outcome (A : Type) : Type :=
| Returned (a : A)
| Raised (e : exn)
| Pending.
Arguments Returned {A} a.
Arguments Raised {A} e.
Arguments Pending {A}.

(** The arguments [chat_async] calls [chat_completions] with (chat.py
    149-156): what it was given, [incremental=True], and the defaults. *)
Definition async_args (user_input : string) (conv_uid app_code model_name : option string)
    (timeout : Z) : args :=
  mkArgs user_input conv_uid app_code model_name None None true None None
    timeout 10 2.

(** What [chat_async] does with the generator it is given (chat.py
    148-159): the loop appends each chunk, and the chunks are joined once the
    generator has returned; an exception of the generator, or of the join,
    is the call's. *)
Definition aggregate (g : gen) : outcome string :=
  match collect g [] with
  | (Return, result_chunks) =>
      match join result_chunks with
      | inr s => Returned s
      | inl e => Raised e
      end
  | (Raise e, _) => Raised e
  | (_, _) => Pending
  end.

(** [chat_async] (chat.py 128-159). *)
Definition chat_async (user_input : string) (conv_uid app_code model_name : option string)
    (timeout : Z) (network : list exchange) (w : world) : outcome string * world :=
  let a := async_args user_input conv_uid app_code model_name timeout in
  let (g, w) := chat_completions a network w in
  (aggregate g, w).

(** [delete_conversation] (chat.py 161-174). *)
Definition delete_conversation (conv_uid : string) (x : exchange) (w : world)
  : result json * world :=
  let (r, w) := http_post "/api/v1/chat/dialogue/delete" [("con_uid", JStr conv_uid)] None x w in
  (bind r (fun response => get response "success" (JBool false)), w).

(** [stop_chat] (chat.py 225-238). *)
Definition stop_chat (conv_session_id : string) (x : exchange) (w : world)
  : result json * world :=
  let (r, w) := http_post "/api/v1/chat/stop" [("conv_session_id", JStr conv_session_id)] None x w in
  (bind r (fun response => get response "success" (JBool false)), w).

End Chat.

(** ** The listing operations of the chat client *)

Module Listing.

Section Listing.

(** The pydantic models the listings build from an item's keywords,
    [ConversationResponse] and [ModelInfo]: validation returns the model or
    raises. *)
Variable ConversationResponse : Type.
Variable new_ConversationResponse : json -> result ConversationResponse.
Variable ModelInfo : Type.
Variable new_ModelInfo : json -> result ModelInfo.

(** A list comprehension [[f(item) for item in items]]. *)
Fixpoint comprehension {A : Type} (f : json -> result A) (items : list json)
  : result (list A) :=
  match items with
  | [] => inr []
  | item :: items =>
      bind (f item) (fun a => bind (comprehension f items) (fun l => inr (a :: l)))
  end.

(** The query parameters of [list_conversations] (chat.py 192-194). *)
Definition list_conversations_params (user_name : option string) (page page_size : Z)
  : list (string * json) :=
  [("page", JInt page); ("page_size", JInt page_size)]
  ++ match user_name with
     | Some s => if (s =? EmptyString)%string then [] else [("user_name", JStr s)]
     | None => []
     end.

(** [list_conversations] (chat.py 176-203). *)
Definition list_conversations (user_name : option string) (page page_size : Z)
    (x : exchange) (w : world) : result (list ConversationResponse) * world :=
  let (r, w) := http_get "/api/v1/chat/dialogue/list"
                  (list_conversations_params user_name page page_size) x w in
  (bind r (fun response =>
   bind (get response "success" JNull) (fun success =>
   if truthy success then
     bind (get response "data" JNull) (fun data =>
     if truthy data then
       bind (getitem response "data") (fun data =>
       bind (iter data) (fun items =>
       comprehension new_ConversationResponse items))
     else inr [])
   else inr [])), w).

(** The loop of [list_models] (chat.py 216-221) over the remaining items,
    with the names seen so far and the models kept so far. *)
Fixpoint keep_healthy (items : list json) (seen_names : list json)
    (healthy_models : list ModelInfo) : result (list ModelInfo) :=
  match items with
  | [] => inr healthy_models
  | item :: items =>
      bind (get item "healthy" JNull) (fun healthy =>
      if truthy healthy then
        bind (get item "model_name" JNull) (fun model_name =>
        if truthy model_name then
          if negb (hashable model_name) then
            inl (py_error TypeError "unhashable type")
          else if negb (existsb (eqb model_name) seen_names) then
            bind (new_ModelInfo item) (fun m =>
            keep_healthy items (model_name :: seen_names) (healthy_models ++ [m]))
          else keep_healthy items seen_names healthy_models
        else keep_healthy items seen_names healthy_models)
      else keep_healthy items seen_names healthy_models)
  end.

(** [list_models] (chat.py 205-223). *)
Definition list_models (x : exchange) (w : world) : result (list ModelInfo) * world :=
  let (r, w) := http_get "/api/v2/serve/model/models" [] x w in
  (bind r (fun response =>
   bind (get response "success" JNull) (fun success =>
   if truthy success then
     bind (get response "data" JNull) (fun data =>
     if truthy data then
       bind (getitem response "data") (fun data =>
       bind (iter data) (fun items =>
       keep_healthy items [] []))
     else inr [])
   else inr [])), w).

End Listing.

End Listing.

Import Chat.

(** ** Vocabulary of the properties *)

(** A field of a response envelope, with the default the code passes to
    [get]. *)
Definition field_of (d : list (string * json)) (key : string) (default : json) : json :=
  match lookup key d with
  | Some v => v
  | None => default
  end.

(** The server reports failure with the given code: [success] is false (or
    absent) and [code] is the given string. *)
Definition reports_failure (code : string) (r : json) : bool :=
  match r with
  | JDict d =>
      negb (truthy (field_of d "success" JNull))
      && eqb (field_of d "code" (JStr EmptyString)) (JStr code)
  | _ => false
  end.

(** The transient failure: code [E0103], session not found. *)
Definition session_not_found (r : json) : bool := reports_failure "E0103" r.

(** A successful response whose data says [is_final]; gives the
    [user_answer] it carries (the empty string when absent). *)
Definition final_answer (r : json) : option json :=
  match r with
  | JDict d =>
      if truthy (field_of d "success" JNull) then
        match field_of d "data" (JDict []) with
        | JDict dd =>
            if truthy (field_of dd "is_final" (JBool false))
            then Some (field_of dd "user_answer" (JStr EmptyString))
            else None
        | _ => None
        end
      else None
  | _ => None
  end.

(** A successful response whose data does not say [is_final]. *)
Definition not_final (r : json) : bool :=
  match r with
  | JDict d =>
      truthy (field_of d "success" JNull)
      && match field_of d "data" (JDict []) with
         | JDict dd => negb (truthy (field_of dd "is_final" (JBool false)))
         | _ => false
         end
  | _ => false
  end.

(** The conversation id a successful submission issues. *)
Definition issued_id (r : json) : option json :=
  match r with
  | JDict d =>
      if truthy (field_of d "success" JNull) then
        match field_of d "data" (JDict []) with
        | JDict dd =>
            if truthy (field_of dd "conv_id" JNull)
            then Some (field_of dd "conv_id" JNull)
            else None
        | _ => None
        end
      else None
  | _ => None
  end.

Definition replies (p : json -> bool) (x : exchange) : bool :=
  match answer x with
  | inr r => p r
  | inl _ => false
  end.

(** The time the polls and the one-second waits after them take. *)
Fixpoint elapsed (polls : list exchange) : Q :=
  match polls with
  | [] => 0
  | x :: polls => (took x + 1 + elapsed polls)%Q
  end.

(** Every one of the polls is begun in time: the loop test that precedes it
    sees less than [timeout] seconds elapsed, when the first test sees
    [e]. *)
Fixpoint in_time (timeout : Z) (e : Q) (polls : list exchange) : Prop :=
  match polls with
  | [] => True
  | x :: polls => (e < inject_Z timeout)%Q /\ in_time timeout (e + (took x + 1))%Q polls
  end.

(** The replies the poll endpoint has given, oldest first. *)
Definition reply_of (e : event) : list (result json) :=
  match e with
  | Called _ _ r => [r]
  | _ => []
  end.

Definition polled (w : world) : list (result json) :=
  flat_map reply_of (calls_to "GET" "/api/v1/chat/query" w).

Definition is_not_found (r : result json) : bool :=
  match r with
  | inr v => session_not_found v
  | inl _ => false
  end.

Definition not_found_count (w : world) : nat :=
  List.length (filter is_not_found (polled w)).

(** A run of [chat_completions] from a clock reading [t0], with nothing yet
    in the trace. *)
Definition run (a : args) (network : list exchange) (t0 : Q) : gen * world :=
  chat_completions a network (mkWorld t0 []).

Definition poll_attempts (w : world) : nat := attempts "GET" "/api/v1/chat/query" w.

(** The first reading of the clock in a run: [start_time]. *)
Definition is_reading (e : event) : list Q :=
  match e with
  | ReadClock t => [t]
  | _ => []
  end.

Definition start_time_of (w : world) : option Q :=
  hd_error (flat_map is_reading (rev (trace w))).

(** When the final replies of the poll endpoint arrived. *)
Definition final_arrival (e : event) : list Q :=
  match e with
  | Called _ arrived (inr r) =>
      match final_answer r with
      | Some _ => [arrived]
      | None => []
      end
  | _ => []
  end.

Definition final_arrivals (w : world) : list Q :=
  flat_map final_arrival (calls_to "GET" "/api/v1/chat/query" w).

(** Some final reply arrived less than [timeout] seconds after
    [start_time]. *)
Definition final_within (timeout : Z) (w : world) : bool :=
  match start_time_of w with
  | Some start_time =>
      existsb (fun t => Qltb (t - start_time) (inject_Z timeout)) (final_arrivals w)
  | None => false
  end.

(** The invariant the data model asks of a request: exactly one of the
    plain text and the message list is populated, and the token limit, if
    present, is not negative. *)
Definition text_populated (r : Models.ChatCompletionRequest) : bool :=
  negb (Models.user_input r =? EmptyString)%string.

Definition messages_populated (r : Models.ChatCompletionRequest) : bool :=
  match Models.messages r with
  | Some (_ :: _) => true
  | _ => false
  end.

Definition tokens_non_negative (r : Models.ChatCompletionRequest) : bool :=
  match Models.max_new_tokens r with
  | Some n => 0 <=? n
  | None => true
  end.

Definition request_invariant (r : Models.ChatCompletionRequest) : bool :=
  xorb (text_populated r) (messages_populated r) && tokens_non_negative r.

(** The same conditions on the arguments of [chat_completions]. *)
Definition args_invariant (a : args) : bool :=
  xorb (negb (user_input a =? EmptyString)%string)
       (match messages a with Some (_ :: _) => true | _ => false end)
  && match max_new_tokens a with Some n => 0 <=? n | None => true end.

(** The model feed, as the specification words it. *)
Definition is_healthy (item : json) : bool :=
  match item with
  | JDict d => truthy (field_of d "healthy" JNull)
  | _ => false
  end.

Definition name_of (item : json) : json :=
  match item with
  | JDict d => field_of d "model_name" JNull
  | _ => JNull
  end.

(** Deduplicated by name, keeping the first occurrence. *)
Fixpoint first_by_name (items : list json) : list json :=
  match items with
  | [] => []
  | item :: items =>
      item :: filter (fun other => negb (eqb (name_of other) (name_of item)))
                     (first_by_name items)
  end.

(** The healthy entries, deduplicated by name. *)
Definition healthy_first (items : list json) : list json :=
  first_by_name (filter is_healthy items).

(** The healthy entries that carry a name, deduplicated by name. *)
Definition healthy_named_first (items : list json) : list json :=
  first_by_name (filter (fun item => is_healthy item && truthy (name_of item)) items).

Definition is_dict (v : json) : bool :=
  match v with
  | JDict _ => true
  | _ => false
  end.

(** A feed the loop of [list_models] can walk: every item is a dict and
    every name can be hashed. *)
Definition walkable (items : list json) : bool :=
  forallb (fun item => is_dict item && hashable (name_of item)) items.

(** The payloads submitted to the chat endpoint, oldest first. *)
Definition payload_of (e : event) : list (option json) :=
  match e with
  | Called rq _ _ => [rq_json rq]
  | _ => []
  end.

Definition submitted (w : world) : list (option json) :=
  flat_map payload_of (calls_to "POST" "/api/v1/chat/completions" w).

(** What one turn of the polling loop does with the reply it gets
    (chat.py 103-121): retry after a transient failure, wait for the next
    poll, or stop. *)
Inductive decision : Type :=
| Retry
| Wait
| Stop (g : gen).

Definition no_get : exn := py_error AttributeError "object has no attribute 'get'".

Definition decide (max_retries retry_count : Z) (r : result json) : decision :=
  match r with
  | inl e => Stop (Raise e)
  | inr (JDict d) =>
      if negb (truthy (field_of d "success" JNull)) then
        if eqb (field_of d "code" (JStr EmptyString)) (JStr "E0103")
           && (retry_count <? max_retries)
        then Retry
        else Stop (Raise (query_failed (JDict d)))
      else
        match field_of d "data" (JDict []) with
        | JDict dd =>
            if truthy (field_of dd "is_final" (JBool false)) then
              if truthy (field_of dd "user_answer" (JStr EmptyString))
              then Stop (Yield (field_of dd "user_answer" (JStr EmptyString)) Return)
              else Stop Return
            else Wait
        | _ => Stop (Raise no_get)
        end
  | inr _ => Stop (Raise no_get)
  end.

(** The world after one poll, and after a run of polls each followed by the
    one-second wait. *)
Definition after_poll (conv_id : json) (x : exchange) (w : world) : world :=
  snd (http_get "/api/v1/chat/query" [("conv_id", conv_id)] x (snd (time_time w))).

Fixpoint after_polls (conv_id : json) (polls : list exchange) (w : world) : world :=
  match polls with
  | [] => w
  | x :: polls => after_polls conv_id polls (slept 1 (after_poll conv_id x w))
  end.

(** A poll after which the loop goes on: a transient failure or a reply
    that is not final. *)
Definition continues (x : exchange) : bool :=
  replies session_not_found x || replies not_final x.

Definition retries_among (polls : list exchange) : Z :=
  Z.of_nat (List.length (filter (replies session_not_found) polls)).

(** The world in which the polling loop starts, after a submission answered
    by [x] and the initial delay. *)
Definition at_loop_start (a : args) (x : exchange) (w : world) : world :=
  snd (time_time
         (slept (initial_delay a)
            (snd (http_post "/api/v1/chat/completions" []
                    (Some (Models.model_dump (build_request a))) x w)))).

(** ** Sample traffic *)

Definition envelope (data : json) : json :=
  JDict [("success", JBool true); ("data", data)].

Definition submit_ok (conv_id : string) : exchange :=
  mkExchange 0 (inr (envelope (JDict [("conv_id", JStr conv_id)]))).

Definition poll_not_found (d : Q) : exchange :=
  mkExchange d (inr (JDict [("success", JBool false); ("code", JStr "E0103");
                            ("err_msg", JStr "session not found")])).

Definition poll_failed (d : Q) : exchange :=
  mkExchange d (inr (JDict [("success", JBool false); ("code", JStr "E9999")])).

Definition poll_pending (d : Q) : exchange :=
  mkExchange d (inr (envelope (JDict [("is_final", JBool false)]))).

Definition poll_final (d : Q) (user_answer : string) : exchange :=
  mkExchange d (inr (envelope (JDict [("is_final", JBool true);
                                      ("user_answer", JStr user_answer)]))).

Definition poll_final_empty (d : Q) : exchange :=
  mkExchange d (inr (envelope (JDict [("is_final", JBool true)]))).

(** A caller in a hurry: a one-second timeout, the other defaults. *)
Definition hurried : args :=
  mkArgs "hi" None None None None None true None None 1 10 2.

(** A caller that allows a single retry. *)
Definition one_retry : args :=
  mkArgs "hi" None None None None None true None None 300 1 2.


(** A caller that passes both a text and a message list, and a negative
    token limit. *)
Definition unchecked : args :=
  mkArgs "hi" None None None None (Some (-5)) true None
    (Some [JDict [("role", JStr "user"); ("content", JStr "hello")]]) 300 10 2.

(** The call [chat_completions] submits the request with. *)
Definition submission (a : args) (x : exchange) (w : world) : event :=
  Called (mkRequest "POST" "/api/v1/chat/completions" []
            (Some (Models.model_dump (build_request a))))
         (now w + took x)%Q (answer x).

(** A feed whose only entry is healthy and has the empty name, and a feed
    with two such entries. *)
Definition nameless : json :=
  JDict [("model_name", JStr EmptyString); ("healthy", JBool true)].

Definition feed_of (items : list json) : exchange :=
  mkExchange 0 (inr (envelope (JList items))).

(** A healthy model entry. *)
Definition model_entry (name host : string) : json :=
  JDict [("model_name", JStr name); ("host", JStr host); ("healthy", JBool true)].

(** ** The rest of the transport: construction, URLs and the connection *)

Module Client.

(** [str.rstrip(c)] for a one-character set. *)
Fixpoint rstrip (c : ascii) (s : string) : string :=
  match s with
  | EmptyString => EmptyString
  | String a s' =>
      match rstrip c s' with
      | EmptyString => if Ascii.eqb a c then EmptyString else String a EmptyString
      | t => String a t
      end
  end.

(** A string of [n] copies of a character. *)
Fixpoint copies (n : nat) (c : ascii) : string :=
  match n with
  | O => EmptyString
  | S n => String c (copies n c)
  end.

(** The last character of a string, if it has one. *)
Fixpoint last_char (s : string) : option ascii :=
  match s with
  | EmptyString => None
  | String a EmptyString => Some a
  | String _ s' => last_char s'
  end.

Definition slash : ascii := "/"%char.

(** The state of an [OpenDeriskHttpClient] (http.py 23-32): the base URL as
    stored, the request timeout, and the connection held in [_client].  A
    connection is named by a number; [made] counts the connections
    constructed so far and [live] lists those not yet closed. *)
Record OpenDeriskHttpClient : Type := mkClient {
  base_url : string;
  timeout : Z;
  _client : option nat;
  made : nat;
  live : list nat
}.

(** [__init__] (http.py 23-32). *)
Definition init (base_url : string) (timeout : Z) : OpenDeriskHttpClient :=
  mkClient (rstrip slash base_url) timeout None 0 [].

(** The URL a request goes to (http.py 73). *)
Definition url (self : OpenDeriskHttpClient) (path : string) : string :=
  (base_url self ++ path)%string.

(** The [client] property (http.py 34-46): the connection, made on first
    use. *)
Definition client (self : OpenDeriskHttpClient) : nat * OpenDeriskHttpClient :=
  match _client self with
  | Some h => (h, self)
  | None =>
      (made self,
       mkClient (base_url self) (timeout self) (Some (made self))
         (S (made self)) (made self :: live self))
  end.

(** [close] (http.py 159-163). *)
Definition close (self : OpenDeriskHttpClient) : OpenDeriskHttpClient :=
  match _client self with
  | Some h =>
      mkClient (base_url self) (timeout self) None (made self)
        (filter (fun k => negb (Nat.eqb k h)) (live self))
  | None => self
  end.

(** What a holder of the client does with it: issue a request, which takes
    the connection through the [client] property, or close it. *)
Inductive op : Type :=
| Request
| Close.

Definition step (self : OpenDeriskHttpClient) (o : op) : OpenDeriskHttpClient :=
  match o with
  | Request => snd (client self)
  | Close => close self
  end.

(** A [with] block (http.py 165-169): the body, then [__exit__], which
    closes whether the body raised or not. *)
Definition with_block (self : OpenDeriskHttpClient) (body : list op)
  : OpenDeriskHttpClient :=
  close (fold_left step body self).

End Client.

(** ** The chat client over the transport *)

(** The network as the transport sees it: how long each call takes and what
    the HTTP library hands back; [_make_request] turns it into what the chat
    client receives. *)
Definition over_transport (json_loads : string -> Http.parsing)
    (status_error_str : Http.Response -> string) (calls : list (Q * Http.wire))
  : list exchange :=
  map (fun c => mkExchange (fst c)
                  (Http._make_request json_loads status_error_str (snd c))) calls.

(** ** More vocabulary of the trace *)

(** The events of a run, oldest first. *)
Definition history (w : world) : list event := rev (trace w).

Definition sleep_of (e : event) : list Q :=
  match e with
  | Slept d => [d]
  | _ => []
  end.

(** The sleeps taken, oldest first. *)
Definition sleeps (w : world) : list Q := flat_map sleep_of (history w).

Definition request_of (e : event) : list request :=
  match e with
  | Called rq _ _ => [rq]
  | _ => []
  end.

(** The requests sent to the poll endpoint, oldest first. *)
Definition poll_requests (w : world) : list request :=
  flat_map request_of (calls_to "GET" "/api/v1/chat/query" w).

(** The request one poll sends (chat.py 98-101). *)
Definition poll_request (conv_id : json) : request :=
  mkRequest "GET" "/api/v1/chat/query" [("conv_id", conv_id)] None.

Definition no_conv_id (response : json) : exn :=
  mkAPIError "No conv_id in response" None (Some response) None None.

(** The three ways a drained generator can look when it yields at most one
    chunk. *)
Definition at_most_one_chunk (g : gen) : Prop :=
  g = Return \/ g = Unfinished
  \/ (exists e, g = Raise e)
  \/ (exists c, g = Yield c Return /\ truthy c = true).

(** ** More vocabulary: payloads and feeds *)


(** [s] keeps some of the elements of [l], in their order. *)
Inductive subsequence {A : Type} : list A -> list A -> Prop :=
| subsequence_nil : forall l, subsequence [] l
| subsequence_keep : forall x s l, subsequence s l -> subsequence (x :: s) (x :: l)
| subsequence_skip : forall x s l, subsequence s l -> subsequence s (x :: l).

(** An entry [list_models] may keep: healthy, with a name. *)
Definition eligible (item : json) : bool :=
  is_healthy item && truthy (name_of item).

(** What [chat_async] makes of the answer a final reply carries. *)
Definition joined (ans : json) : outcome string :=
  match ans with
  | JStr s => Returned s
  | _ => if truthy ans
         then Raised (py_error TypeError "sequence item: expected str instance")
         else Returned EmptyString
  end.

(** ** The text of an error: [exceptions.py] 17-23 *)

Module Errors.

Definition newline : string := String (ascii_of_nat 10) EmptyString.

(** [if self.details:] on an optional string: present and not empty. *)
Definition given (o : option string) : list string :=
  match o with
  | Some s => if (s =? EmptyString)%string then [] else [s]
  | None => []
  end.

(** The lines [__str__] collects. *)
Definition parts (e : exn) : list string :=
  [message e]
  ++ map (fun d => ("Details: " ++ d)%string) (given (details e))
  ++ map (fun s => ("Suggestion: " ++ s)%string) (given (suggestion e)).

(** [OpenDeriskError.__str__]: the lines joined by newlines. *)
Definition __str__ (e : exn) : string := String.concat newline (parts e).

(** A line after the first, as it appears in the text. *)
Definition line (label : string) (o : option string) : string :=
  match given o with
  | s :: _ => (newline ++ label ++ s)%string
  | [] => EmptyString
  end.

End Errors.

(** ** The [send] command: [commands/chat.py] 31-76 *)

Module Cli.

(** What the command handed to the two consoles, standard output and
    standard error: each call of [print] that returned gives one entry, the
    markup it was called with. *)
Record console : Type := mkConsole {
  out : list string;
  err : list string
}.

(** How the command ends: it returns, it exits with a status, an exception
    it does not catch escapes, or the chat is still pending. *)
Inductive ending : Type :=
| Finished
| Exit (code : Z)
| Uncaught (e : exn)
| Hanging.

(** The handler for [OpenDeriskError] (commands/chat.py 69-73). *)
Definition report (e : exn) : list string :=
  [("[red]Error:[/red] " ++ message e)%string]
  ++ map (fun s => ("[dim]Suggestion: " ++ s ++ "[/dim]")%string)
         (Errors.given (suggestion e)).

(** [send], given a chat client: the call of [chat_async], the answer
    printed, and the handler.  [console.print(result)] (commands/chat.py 67)
    reads the answer as console markup: [markup_error] gives the message
    of the [MarkupError] rich raises for a text it cannot render, and
    nothing in [send] catches it. *)
Definition send (markup_error : string -> option string)
    (message : string) (conv_uid model_name app_code : option string)
    (timeout : Z) (network : list exchange) (w : world) : console * ending * world :=
  let (r, w) := chat_async message conv_uid app_code model_name timeout network w in
  match r with
  | Returned result =>
      match markup_error result with
      | Some msg => (mkConsole [] [], Uncaught (py_error MarkupError msg), w)
      | None => (mkConsole [result] [], Finished, w)
      end
  | Raised e =>
      if isinstance e OpenDeriskError
      then (mkConsole [] (report e), Exit 1, w)
      else (mkConsole [] [], Uncaught e, w)
  | Pending => (mkConsole [] [], Hanging, w)
  end.

End Cli.

(** ** A cell of a table: [utils/output.py] 146-158 *)

Module Output.

(** [len] of a dict: its distinct keys. *)
Definition dict_len (d : list (string * json)) : nat :=
  List.length (nodup string_dec (map fst d)).

(** [_format_value] (output.py 146-158); [str_of_float] stands for [str]
    on a float. *)
Definition _format_value (str_of_float : Q -> string) (value : json) : string :=
  match value with
  | JNull => "-"
  | JBool b => if b then "Yes" else "No"
  | JList l => ("[" ++ str_of_int (Z.of_nat (List.length l)) ++ " items]")%string
  | JDict d => ("{" ++ str_of_int (Z.of_nat (dict_len d)) ++ " keys}")%string
  | JStr s =>
      if (50 <? len s)%nat then (slice_to 47 s ++ "...")%string else s
  | JInt z => str_of_int z
  | JFloat q => str_of_float q
  end.

End Output.

(** ** More vocabulary: failures, turns of the loop *)

(** The server reports failure: [success] is false, or absent. *)
Definition failure_reported (r : json) : bool :=
  match r with
  | JDict d => negb (truthy (field_of d "success" JNull))
  | _ => false
  end.

(** The events of the polling loop, turn by turn.  Every turn begins by
    reading the clock; a turn that goes on polls and then sleeps one second;
    the last turn polls and stops, or only reads the clock. *)
Fixpoint turns (conv_id : json) (h : list event) : Prop :=
  match h with
  | ReadClock _ :: rest =>
      match rest with
      | [] => True
      | Called rq _ _ :: rest =>
          rq = poll_request conv_id
          /\ match rest with
             | [] => True
             | Slept d :: rest => d = 1%Q /\ turns conv_id rest
             | _ => False
             end
      | _ => False
      end
  | _ => False
  end.

(** ** Properties *)

Local Open Scope list_scope.

(** *** Python values *)

Lemma get_dict (d : list (string * json)) (key : string) (default : json) :
  get (JDict d) key default = inr (field_of d key default).
Proof. reflexivity. Qed.

Lemma Qltb_lt (a b : Q) : Qltb a b = true <-> (a < b)%Q.
Proof.
  unfold Qltb. rewrite negb_true_iff.
  split; intro H.
  - apply Qnot_le_lt. intro Hle. apply Qle_bool_iff in Hle. congruence.
  - destruct (Qle_bool b a) eqn:E; [|reflexivity].
    apply Qle_bool_iff in E. exfalso. apply (Qlt_not_le _ _ H E).
Qed.

Lemma Qltb_ge (a b : Q) : Qltb a b = false <-> (b <= a)%Q.
Proof.
  unfold Qltb. rewrite negb_false_iff. apply Qle_bool_iff.
Qed.

Lemma Qltb_compat (a a' b : Q) : (a == a')%Q -> Qltb a b = Qltb a' b.
Proof.
  intro H. destruct (Qltb a' b) eqn:E.
  - apply Qltb_lt. apply Qltb_lt in E. rewrite H. exact E.
  - apply Qltb_ge. apply Qltb_ge in E. rewrite H. exact E.
Qed.

(** *** One turn of the loop *)

Lemma poll_loop_nil (T M : Z) (c : json) (s : Q) (rc : Z) (w : world) :
  poll_loop T M c s [] rc w =
  if Qltb (now w - s) (inject_Z T) then (Unfinished, snd (time_time w))
  else (Raise (timed_out T), snd (time_time w)).
Proof. reflexivity. Qed.

Lemma poll_loop_cons (T M : Z) (c : json) (s : Q) (x : exchange)
    (network : list exchange) (rc : Z) (w : world) :
  poll_loop T M c s (x :: network) rc w =
  if Qltb (now w - s) (inject_Z T) then
    match decide M rc (answer x) with
    | Retry => poll_loop T M c s network (rc + 1) (slept 1 (after_poll c x w))
    | Wait => poll_loop T M c s network rc (slept 1 (after_poll c x w))
    | Stop g => (g, after_poll c x w)
    end
  else (Raise (timed_out T), snd (time_time w)).
Proof.
  cbn [poll_loop]. unfold time_time at 1. cbn [now].
  destruct (Qltb (now w - s) (inject_Z T)); [|reflexivity].
  unfold after_poll, http_get, http_call, time_time. cbn [snd fst now trace].
  unfold decide.
  destruct (answer x) as [e|r]; [reflexivity|].
  destruct r; try reflexivity.
  rewrite !get_dict.
  destruct (truthy (field_of d "success" JNull)); cbn [negb].
  - destruct (field_of d "data" (JDict [])) as [| | | | | |dd]; try reflexivity.
    rewrite !get_dict.
    destruct (truthy (field_of dd "is_final" (JBool false))); [|reflexivity].
    destruct (truthy (field_of dd "user_answer" (JStr EmptyString))); reflexivity.
  - destruct (eqb (field_of d "code" (JStr EmptyString)) (JStr "E0103") && (rc <? M));
      reflexivity.
Qed.

Lemma decide_not_found (M rc : Z) (r : json) :
  session_not_found r = true ->
  decide M rc (inr r) = if rc <? M then Retry else Stop (Raise (query_failed r)).
Proof.
  unfold session_not_found, reports_failure, decide.
  destruct r; try discriminate.
  intro H. apply andb_true_iff in H. destruct H as [Hs Hc].
  rewrite Hs, Hc. cbn [andb]. reflexivity.
Qed.

Lemma decide_retry (M rc : Z) (r : result json) :
  decide M rc r = Retry -> is_not_found r = true /\ rc < M.
Proof.
  unfold decide, is_not_found, session_not_found, reports_failure.
  destruct r as [e|r]; [discriminate|].
  destruct r; try discriminate.
  destruct (negb (truthy (field_of d "success" JNull))).
  - destruct (eqb (field_of d "code" (JStr EmptyString)) (JStr "E0103")); cbn [andb].
    + destruct (rc <? M) eqn:E; [|discriminate].
      intros _. split; [reflexivity|]. apply Z.ltb_lt. exact E.
    + discriminate.
  - destruct (field_of d "data" (JDict [])); try discriminate.
    destruct (truthy (field_of d0 "is_final" (JBool false))); [|discriminate].
    destruct (truthy (field_of d0 "user_answer" (JStr EmptyString))); discriminate.
Qed.

Lemma decide_not_final (M rc : Z) (r : json) :
  not_final r = true -> decide M rc (inr r) = Wait.
Proof.
  unfold not_final, decide.
  destruct r; try discriminate.
  intro H. apply andb_true_iff in H. destruct H as [Hs Hd].
  rewrite Hs. cbn [negb].
  destruct (field_of d "data" (JDict [])); try discriminate.
  apply negb_true_iff in Hd. rewrite Hd. reflexivity.
Qed.

Lemma decide_wait (M rc : Z) (r : result json) :
  decide M rc r = Wait -> is_not_found r = false /\
  forall v, r = inr v -> final_answer v = None.
Proof.
  unfold decide, is_not_found, session_not_found, reports_failure, final_answer.
  destruct r as [e|r]; [discriminate|].
  destruct r; try discriminate.
  destruct (truthy (field_of d "success" JNull)) eqn:Es; cbn [negb andb].
  - destruct (field_of d "data" (JDict [])) eqn:Ed; try discriminate.
    destruct (truthy (field_of d0 "is_final" (JBool false))) eqn:Ef.
    + destruct (truthy (field_of d0 "user_answer" (JStr EmptyString))); discriminate.
    + intros _. split; [reflexivity|].
      intros v Hv. injection Hv as <-. rewrite Es, Ed, Ef. reflexivity.
  - destruct (eqb (field_of d "code" (JStr EmptyString)) (JStr "E0103") && (rc <? M));
      discriminate.
Qed.

Lemma decide_final (M rc : Z) (r ans : json) :
  final_answer r = Some ans ->
  decide M rc (inr r) = Stop (if truthy ans then Yield ans Return else Return).
Proof.
  unfold final_answer, decide.
  destruct r; try discriminate.
  destruct (truthy (field_of d "success" JNull)); [|discriminate]. cbn [negb].
  destruct (field_of d "data" (JDict [])); try discriminate.
  destruct (truthy (field_of d0 "is_final" (JBool false))); [|discriminate].
  intro H. injection H as <-.
  destruct (truthy (field_of d0 "user_answer" (JStr EmptyString))); reflexivity.
Qed.

(** A reply that stops the loop and is not final stops it with an
    exception; a transient failure that stops it does so with the
    query-failed error. *)
Lemma decide_stop (M rc : Z) (r : result json) (g : gen) :
  decide M rc r = Stop g ->
  (forall v ans, r = inr v -> final_answer v = Some ans ->
                 g = if truthy ans then Yield ans Return else Return)
  /\ (is_not_found r = true -> M <= rc /\ exists v, g = Raise (query_failed v)).
Proof.
  intro H. split.
  - intros v ans -> Hf. rewrite (decide_final M rc v ans Hf) in H.
    injection H as <-. reflexivity.
  - destruct r as [e|v]; [discriminate|]. cbn [is_not_found]. intro Hn.
    rewrite (decide_not_found M rc v Hn) in H.
    destruct (rc <? M) eqn:E; [discriminate|].
    injection H as <-. split; [apply Z.ltb_ge; exact E|]. exists v. reflexivity.
Qed.

(** *** The trace *)

Lemma calls_to_event (m p : string) (t : Q) (e : event) (tr : list event) :
  calls_to m p (mkWorld t (e :: tr)) =
  calls_to m p (mkWorld t tr) ++ (if is_call_to m p e then [e] else []).
Proof.
  unfold calls_to. cbn [trace rev]. rewrite filter_app. cbn [filter].
  destruct (is_call_to m p e); reflexivity.
Qed.

Lemma calls_to_clock (m p : string) (t t' : Q) (tr : list event) :
  calls_to m p (mkWorld t tr) = calls_to m p (mkWorld t' tr).
Proof. reflexivity. Qed.

Lemma calls_to_after_poll (m p : string) (c : json) (x : exchange) (w : world) :
  calls_to m p (slept 1 (after_poll c x w)) = calls_to m p (after_poll c x w).
Proof.
  unfold slept. rewrite calls_to_event. cbn [is_call_to].
  rewrite app_nil_r. reflexivity.
Qed.

Lemma polled_after_poll (c : json) (x : exchange) (w : world) :
  polled (after_poll c x w) = polled w ++ [answer x].
Proof.
  unfold polled, after_poll, http_get, http_call, time_time. cbn [snd fst now trace].
  rewrite calls_to_event. cbn [is_call_to rq_method rq_path].
  rewrite calls_to_event. cbn [is_call_to].
  rewrite app_nil_r, flat_map_app. cbn.
  destruct w as [t tr]. reflexivity.
Qed.

Lemma polled_sleep (d : Q) (w : world) : polled (slept d w) = polled w.
Proof.
  unfold polled, slept. rewrite calls_to_event. cbn [is_call_to].
  rewrite app_nil_r. destruct w. reflexivity.
Qed.

Lemma polled_time (w : world) : polled (snd (time_time w)) = polled w.
Proof.
  unfold polled, time_time. cbn [snd]. rewrite calls_to_event. cbn [is_call_to].
  rewrite app_nil_r. destruct w. reflexivity.
Qed.

Lemma poll_attempts_polled (w : world) : poll_attempts w = List.length (polled w).
Proof.
  unfold poll_attempts, attempts, polled, calls_to.
  induction (rev (trace w)) as [|e l IH]; [reflexivity|].
  cbn [filter]. destruct e; cbn [is_call_to]; try exact IH.
  destruct ((rq_method rq =? "GET")%string && (rq_path rq =? "/api/v1/chat/query")%string);
    [|exact IH].
  cbn [List.length flat_map reply_of app]. rewrite IH. reflexivity.
Qed.

Lemma not_found_not_final (v : json) :
  session_not_found v = true -> final_answer v = None.
Proof.
  unfold session_not_found, reports_failure, final_answer.
  destruct v; try reflexivity.
  intro H. apply andb_true_iff in H. destruct H as [Hs _].
  apply negb_true_iff in Hs. rewrite Hs. reflexivity.
Qed.

(** *** What the loop does, read off the replies it received *)

Lemma poll_loop_replies (T M : Z) (c : json) (s : Q) (network : list exchange) :
  forall (rc : Z) (w : world),
  exists new : list (result json),
    polled (snd (poll_loop T M c s network rc w)) = polled w ++ new
    /\ (rc <= M ->
        M - rc < Z.of_nat (List.length (filter is_not_found new)) ->
        exists v, fst (poll_loop T M c s network rc w) = Raise (query_failed v))
    /\ (forall v ans, In (inr v) new -> final_answer v = Some ans ->
        fst (poll_loop T M c s network rc w)
        = if truthy ans then Yield ans Return else Return).
Proof.
  assert (Hstop : forall rc w g,
    exists new : list (result json),
      polled (snd (g, snd (time_time w))) = polled w ++ new
      /\ (rc <= M -> M - rc < Z.of_nat (List.length (filter is_not_found new)) ->
          exists v, fst (g, snd (time_time w)) = Raise (query_failed v))
      /\ (forall v ans, In (inr v) new -> final_answer v = Some ans ->
          fst (g, snd (time_time w)) = if truthy ans then Yield ans Return else Return)).
  { intros rc w g. exists []. cbn [snd fst]. rewrite polled_time, app_nil_r.
    split; [reflexivity|]. split.
    - cbn. intros. lia.
    - intros v ans []. }
  induction network as [|x network IH]; intros rc w.
  - rewrite poll_loop_nil.
    destruct (Qltb (now w - s) (inject_Z T)); apply Hstop.
  - rewrite poll_loop_cons.
    destruct (Qltb (now w - s) (inject_Z T)); [|apply Hstop].
    destruct (decide M rc (answer x)) eqn:D.
    + apply decide_retry in D. destruct D as [Hn Hlt].
      destruct (IH (rc + 1) (slept 1 (after_poll c x w)))
        as (new & Hp & Hfail & Hfin).
      exists (answer x :: new).
      rewrite Hp, polled_sleep, polled_after_poll, <- app_assoc.
      split; [reflexivity|]. split.
      * cbn [filter]. rewrite Hn. cbn [List.length]. intros Hle Hc.
        apply Hfail; lia.
      * intros v ans [Hx|Hin] Hf.
        -- rewrite Hx in Hn. cbn [is_not_found] in Hn.
           rewrite (not_found_not_final v Hn) in Hf. discriminate.
        -- exact (Hfin v ans Hin Hf).
    + apply decide_wait in D. destruct D as [Hn Hnf].
      destruct (IH rc (slept 1 (after_poll c x w)))
        as (new & Hp & Hfail & Hfin).
      exists (answer x :: new).
      rewrite Hp, polled_sleep, polled_after_poll, <- app_assoc.
      split; [reflexivity|]. split.
      * cbn [filter]. rewrite Hn. exact Hfail.
      * intros v ans [Hx|Hin] Hf.
        -- rewrite (Hnf v Hx) in Hf. discriminate.
        -- exact (Hfin v ans Hin Hf).
    + apply decide_stop in D. destruct D as [Hfin Hnf].
      exists [answer x]. cbn [snd fst]. rewrite polled_after_poll.
      split; [reflexivity|]. split.
      * cbn [filter]. destruct (is_not_found (answer x)).
        -- intros _ _. destruct (Hnf eq_refl) as [_ Hv]. exact Hv.
        -- cbn. intros. lia.
      * intros v ans [Hx|[]] Hf. exact (Hfin v ans Hx Hf).
Qed.

(** *** Polls after which the loop goes on *)

Lemma not_final_not_found (v : json) :
  not_final v = true -> session_not_found v = false.
Proof.
  unfold not_final, session_not_found, reports_failure.
  destruct v; try discriminate.
  intro H. apply andb_true_iff in H. destruct H as [Hs _].
  rewrite Hs. reflexivity.
Qed.

Lemma continues_decide (M rc : Z) (x : exchange) :
  continues x = true ->
  (replies session_not_found x = true /\
   decide M rc (answer x) = if rc <? M then Retry else Stop (Raise (query_failed
     match answer x with inr v => v | inl _ => JNull end)))
  \/ (replies session_not_found x = false /\ decide M rc (answer x) = Wait).
Proof.
  unfold continues, replies. destruct (answer x) as [e|v]; [discriminate|].
  destruct (session_not_found v) eqn:Hn; cbn [orb].
  - intros _. left. split; [reflexivity|]. apply decide_not_found. exact Hn.
  - intro Hf. right. split; [reflexivity|]. apply decide_not_final. exact Hf.
Qed.

Lemma now_after_poll (c : json) (x : exchange) (w : world) :
  now (slept 1 (after_poll c x w)) = (now w + took x + 1)%Q.
Proof. reflexivity. Qed.

Lemma poll_loop_skip (T M : Z) (c : json) (s : Q) (rest : list exchange) :
  forall (pre : list exchange) (rc : Z) (w : world) (e : Q),
  forallb continues pre = true ->
  rc + retries_among pre <= M ->
  in_time T e pre ->
  (now w - s == e)%Q ->
  poll_loop T M c s (pre ++ rest) rc w =
  poll_loop T M c s rest (rc + retries_among pre) (after_polls c pre w)
  /\ (now (after_polls c pre w) - s == e + elapsed pre)%Q.
Proof.
  induction pre as [|x pre IH]; intros rc w e Hc Hb Ht He.
  - cbn [app after_polls elapsed]. unfold retries_among. cbn.
    rewrite Z.add_0_r. split; [reflexivity|]. rewrite He. lra.
  - cbn [forallb] in Hc. apply andb_true_iff in Hc. destruct Hc as [Hx Hc].
    cbn [in_time] in Ht. destruct Ht as [Hlt Ht].
    cbn [app after_polls elapsed]. rewrite poll_loop_cons.
    rewrite (Qltb_compat _ e _ He).
    apply Qltb_lt in Hlt. rewrite Hlt.
    assert (Hnow : (now (slept 1 (after_poll c x w)) - s == e + (took x + 1))%Q).
    { rewrite now_after_poll. rewrite <- He. lra. }
    unfold retries_among in *. cbn [filter] in *.
    destruct (continues_decide M rc x Hx) as [[Hn D]|[Hn D]]; rewrite Hn in *.
    + cbn [List.length] in *.
      assert (Hrc : (rc <? M) = true) by (apply Z.ltb_lt; lia).
      rewrite Hrc in D. rewrite D.
      destruct (IH (rc + 1) (slept 1 (after_poll c x w)) (e + (took x + 1))%Q
                  Hc (ltac:(lia)) Ht Hnow) as [Hl Hq].
      split.
      * rewrite Hl. f_equal. lia.
      * rewrite Hq. lra.
    + rewrite D.
      destruct (IH rc (slept 1 (after_poll c x w)) (e + (took x + 1))%Q
                  Hc Hb Ht Hnow) as [Hl Hq].
      split; [exact Hl|]. rewrite Hq. lra.
Qed.

Lemma polled_after_polls (c : json) (pre : list exchange) :
  forall w, polled (after_polls c pre w) = polled w ++ map answer pre.
Proof.
  induction pre as [|x pre IH]; intro w; cbn [after_polls map].
  - rewrite app_nil_r. reflexivity.
  - rewrite IH, polled_sleep, polled_after_poll, <- app_assoc. reflexivity.
Qed.

(** *** From the submission to the loop *)

Lemma polled_post (path : string) (ps : list (string * json)) (body : option json)
    (x : exchange) (w : world) :
  polled (snd (http_post path ps body x w)) = polled w.
Proof.
  unfold polled, http_post, http_call. cbn [snd]. rewrite calls_to_event.
  cbn [is_call_to rq_method andb]. rewrite app_nil_r. destruct w. reflexivity.
Qed.

Lemma polled_at_loop_start (a : args) (x : exchange) (w : world) :
  polled (at_loop_start a x w) = polled w.
Proof.
  unfold at_loop_start. rewrite polled_time, polled_sleep, polled_post. reflexivity.
Qed.

Lemma time_sleep_returns (d : Q) (w : world) :
  (0 <= d)%Q -> time_sleep d w = inr (slept d w).
Proof.
  intro H. unfold time_sleep. apply Qltb_ge in H. rewrite H. reflexivity.
Qed.

Lemma time_sleep_raises (d : Q) (w : world) :
  (d < 0)%Q -> time_sleep d w = inl negative_sleep.
Proof.
  intro H. unfold time_sleep. apply Qltb_lt in H. rewrite H. reflexivity.
Qed.

Lemma delay_sign (d : Q) : (0 <= d)%Q \/ (d < 0)%Q.
Proof. destruct (Qlt_le_dec d 0); [right|left]; assumption. Qed.

Lemma chat_completions_loop (a : args) (x : exchange) (network : list exchange)
    (w : world) (r c : json) :
  answer x = inr r ->
  issued_id r = Some c ->
  (0 <= initial_delay a)%Q ->
  chat_completions a (x :: network) w =
  poll_loop (timeout a) (max_retries a) c (now (at_loop_start a x w)) network 0
    (at_loop_start a x w).
Proof.
  intros Hx Hid Hd. unfold chat_completions, at_loop_start, http_post, http_call.
  cbn [snd fst]. rewrite Hx.
  unfold issued_id in Hid. destruct r; try discriminate.
  rewrite get_dict.
  destruct (truthy (field_of d "success" JNull)); [|discriminate]. cbn [negb].
  rewrite get_dict.
  destruct (field_of d "data" (JDict [])); try discriminate.
  rewrite get_dict.
  destruct (truthy (field_of d0 "conv_id" JNull)); [|discriminate]. cbn [negb].
  rewrite (time_sleep_returns _ _ Hd).
  injection Hid as <-. reflexivity.
Qed.

(** A negative initial delay: the sleep raises, and the call ends in the
    world the submission left. *)
Lemma chat_completions_negative_delay (a : args) (x : exchange)
    (network : list exchange) (w : world) (r c : json) :
  answer x = inr r ->
  issued_id r = Some c ->
  (initial_delay a < 0)%Q ->
  chat_completions a (x :: network) w =
  (Raise negative_sleep,
   snd (http_post "/api/v1/chat/completions" []
          (Some (Models.model_dump (build_request a))) x w)).
Proof.
  intros Hx Hid Hd. unfold chat_completions, http_post, http_call.
  cbn [snd fst]. rewrite Hx.
  unfold issued_id in Hid. destruct r; try discriminate.
  rewrite get_dict.
  destruct (truthy (field_of d "success" JNull)); [|discriminate]. cbn [negb].
  rewrite get_dict.
  destruct (field_of d "data" (JDict [])); try discriminate.
  rewrite get_dict.
  destruct (truthy (field_of d0 "conv_id" JNull)); [|discriminate]. cbn [negb].
  rewrite (time_sleep_raises _ _ Hd). reflexivity.
Qed.

Lemma chat_completions_cases (a : args) (network : list exchange) (w : world) :
  (exists x rest r c, network = x :: rest /\ answer x = inr r /\ issued_id r = Some c
                      /\ (0 <= initial_delay a)%Q)
  \/ (polled (snd (chat_completions a network w)) = polled w
      /\ chunks (fst (chat_completions a network w)) = []
      /\ fst (chat_completions a network w) <> Return).
Proof.
  destruct network as [|x rest].
  - right. cbn. repeat split. discriminate.
  - destruct (answer x) as [e|r] eqn:Hx.
    + right. unfold chat_completions. rewrite <- polled_post
        with (path := "/api/v1/chat/completions") (ps := [])
             (body := Some (Models.model_dump (build_request a))) (x := x) (w := w).
      unfold http_post, http_call. rewrite Hx. cbn [snd fst chunks].
      repeat split. discriminate.
    + destruct (issued_id r) as [c|] eqn:Hid.
      * destruct (delay_sign (initial_delay a)) as [Hd|Hd].
        -- left. exists x, rest, r, c. repeat split; assumption.
        -- right. rewrite (chat_completions_negative_delay a x rest w r c Hx Hid Hd).
           cbn [fst snd chunks]. rewrite polled_post. repeat split. discriminate.
      * right. unfold chat_completions. rewrite <- polled_post
          with (path := "/api/v1/chat/completions") (ps := [])
               (body := Some (Models.model_dump (build_request a))) (x := x) (w := w).
        unfold http_post, http_call. rewrite Hx. cbn [snd fst].
        unfold issued_id in Hid.
        destruct r; try (cbn; repeat split; discriminate).
        rewrite get_dict.
        destruct (truthy (field_of d "success" JNull));
          [|cbn; repeat split; discriminate]. cbn [negb].
        rewrite get_dict.
        destruct (field_of d "data" (JDict []));
          try (cbn; repeat split; discriminate).
        rewrite get_dict.
        destruct (truthy (field_of d0 "conv_id" JNull)); [discriminate|].
        cbn; repeat split; discriminate.
Qed.

Lemma chat_completions_replies (a : args) (network : list exchange) (w : world) :
  exists new : list (result json),
    polled (snd (chat_completions a network w)) = polled w ++ new
    /\ (0 <= max_retries a ->
        max_retries a < Z.of_nat (List.length (filter is_not_found new)) ->
        exists v, fst (chat_completions a network w) = Raise (query_failed v))
    /\ (forall v ans, In (inr v) new -> final_answer v = Some ans ->
        fst (chat_completions a network w)
        = if truthy ans then Yield ans Return else Return).
Proof.
  destruct (chat_completions_cases a network w)
    as [(x & rest & r & c & -> & Hx & Hid & Hd)|(Hp & _ & _)].
  - rewrite (chat_completions_loop a x rest _ r c Hx Hid Hd).
    destruct (poll_loop_replies (timeout a) (max_retries a) c
                (now (at_loop_start a x w)) rest 0
                (at_loop_start a x w)) as (new & Hp & Hfail & Hfin).
    exists new. rewrite Hp, polled_at_loop_start. split; [reflexivity|]. split.
    + intros H0 Hc. apply Hfail; lia.
    + exact Hfin.
  - exists []. rewrite Hp, app_nil_r. split; [reflexivity|]. split.
    + cbn. intros. lia.
    + intros v ans [].
Qed.

Lemma run_replies (a : args) (network : list exchange) (t0 : Q) :
  exists new : list (result json),
    polled (snd (run a network t0)) = new
    /\ (0 <= max_retries a ->
        max_retries a < Z.of_nat (List.length (filter is_not_found new)) ->
        exists v, fst (run a network t0) = Raise (query_failed v))
    /\ (forall v ans, In (inr v) new -> final_answer v = Some ans ->
        fst (run a network t0) = if truthy ans then Yield ans Return else Return).
Proof.
  destruct (chat_completions_replies a network (mkWorld t0 [])) as (new & H).
  exists new. exact H.
Qed.

(** *** The retry budget *)

(** C2: in every run of [chat_completions] in which the poll endpoint
    answers with the transient failure (success false, code E0103) more
    often than [max_retries] allows, the generator raises the query-failed
    [APIError], which is not a [TimeoutError]. *)
Theorem C2_retry_budget_exhausted (a : args) (network : list exchange) (t0 : Q) :
  0 <= max_retries a ->
  max_retries a < Z.of_nat (not_found_count (snd (run a network t0))) ->
  exists v,
    fst (run a network t0) = Raise (query_failed v)
    /\ cls (query_failed v) = APIError
    /\ isinstance (query_failed v) TimeoutError = false
    /\ message (query_failed v) = "Failed to query chat status"%string.
Proof.
  intros H0 Hc. unfold not_found_count in Hc.
  destruct (run_replies a network t0) as (new & Hp & Hfail & _).
  rewrite Hp in Hc. destruct (Hfail H0 Hc) as [v Hv].
  exists v. repeat split. exact Hv.
Qed.

(** *** An empty completion *)

(** C7: in every run of [chat_completions] in which a poll reply is final
    ([is_final] true) and its [user_answer] is empty or absent, the
    generator ends normally without having yielded a chunk. *)
Theorem C7_empty_final_answer (a : args) (network : list exchange) (t0 : Q)
    (v ans : json) :
  In (inr v) (polled (snd (run a network t0))) ->
  final_answer v = Some ans ->
  truthy ans = false ->
  fst (run a network t0) = Return
  /\ chunks (fst (run a network t0)) = []
  /\ ending (fst (run a network t0)) = Return.
Proof.
  intros Hin Hf Ht.
  destruct (run_replies a network t0) as (new & Hp & _ & Hfin).
  rewrite Hp in Hin. rewrite (Hfin v ans Hin Hf), Ht. repeat split.
Qed.

(** *** Time *)

Lemma in_time_compat (T : Z) (l : list exchange) :
  forall e e', (e == e')%Q -> in_time T e l -> in_time T e' l.
Proof.
  induction l as [|x l IH]; intros e e' He; cbn [in_time]; [trivial|].
  intros [Hlt Hl]. split.
  - rewrite <- He. exact Hlt.
  - apply (IH (e + (took x + 1))%Q); [rewrite He; reflexivity|exact Hl].
Qed.

Lemma in_time_app (T : Z) (q : list exchange) :
  forall (p : list exchange) (e : Q),
  in_time T e (p ++ q) -> in_time T e p /\ in_time T (e + elapsed p) q.
Proof.
  induction p as [|x p IH]; intros e; cbn [app in_time elapsed].
  - intro H. split; [trivial|]. apply (in_time_compat T q e); [lra|exact H].
  - intros [Hlt H]. destruct (IH _ H) as [Hp Hq]. repeat split; try assumption.
    apply (in_time_compat T q (e + (took x + 1) + elapsed p)%Q); [lra|exact Hq].
Qed.

Lemma retries_among_le (l : list exchange) :
  retries_among l <= Z.of_nat (List.length l).
Proof.
  unfold retries_among. apply inj_le. apply filter_length_le.
Qed.

Lemma not_found_continues (l : list exchange) :
  forallb (replies session_not_found) l = true -> forallb continues l = true.
Proof.
  intro H. rewrite forallb_forall in *. intros x Hx.
  unfold continues. rewrite (H x Hx). reflexivity.
Qed.

(** *** Transient failures followed by the answer *)

Lemma all_not_found (l : list json) :
  forallb session_not_found l = true ->
  List.length (filter is_not_found (map (fun v => inr v) l)) = List.length l.
Proof.
  induction l as [|v l IH]; cbn [forallb map filter is_not_found]; [reflexivity|].
  intro H. apply andb_true_iff in H. destruct H as [Hv Hl].
  rewrite Hv. cbn [List.length]. rewrite (IH Hl). reflexivity.
Qed.

(** C1: in every run of [chat_completions] in which the submission succeeds
    with a conversation id and the poll endpoint answers with the transient
    failure (success false, code E0103) exactly k times, k at most
    [max_retries], and then with a final reply whose [user_answer] is the
    non-empty string X, the generator yields exactly the one chunk X and the
    poll endpoint is called exactly k+1 times.  This is stated twice: for the
    answers the network holds ready, the initial delay not being negative and
    each of the k+1 polls being begun before the timeout has elapsed; and for
    the replies the run has received, where k is then within the retry budget
    of itself. *)
Theorem C1_retries_then_answer (a : args) (t0 : Q) (X : string) :
  X <> EmptyString ->
  (forall submit r c retries final rf rest,
     (0 <= initial_delay a)%Q ->
     answer submit = inr r ->
     issued_id r = Some c ->
     forallb (replies session_not_found) retries = true ->
     Z.of_nat (List.length retries) <= max_retries a ->
     answer final = inr rf ->
     final_answer rf = Some (JStr X) ->
     in_time (timeout a) 0 (retries ++ [final]) ->
     fst (run a (submit :: retries ++ final :: rest) t0) = Yield (JStr X) Return
     /\ chunks (fst (run a (submit :: retries ++ final :: rest) t0)) = [JStr X]
     /\ poll_attempts (snd (run a (submit :: retries ++ final :: rest) t0))
        = S (List.length retries))
  /\ (forall network not_found rf,
     polled (snd (run a network t0)) = map (fun v => inr v) not_found ++ [inr rf] ->
     forallb session_not_found not_found = true ->
     final_answer rf = Some (JStr X) ->
     fst (run a network t0) = Yield (JStr X) Return
     /\ chunks (fst (run a network t0)) = [JStr X]
     /\ poll_attempts (snd (run a network t0)) = S (List.length not_found)
     /\ (0 <= max_retries a -> Z.of_nat (List.length not_found) <= max_retries a)).
Proof.
  intro HX.
  assert (Htr' : truthy (JStr X) = true).
  { cbn. apply negb_true_iff. apply String.eqb_neq. exact HX. }
  split.
  - intros submit r c retries final rf rest Hd Hs Hid Hr Hk Hf Hfa Ht. unfold run.
    rewrite (chat_completions_loop a submit _ _ r c Hs Hid Hd).
    set (w0 := at_loop_start a submit (mkWorld t0 [])).
    apply in_time_app in Ht. destruct Ht as [Htr Htf].
    destruct (poll_loop_skip (timeout a) (max_retries a) c (now w0) (final :: rest)
                retries 0 w0 0%Q (not_found_continues _ Hr)) as [Hl Hq].
    { pose proof (retries_among_le retries). lia. }
    { exact Htr. }
    { lra. }
    rewrite Hl, poll_loop_cons.
    cbn [in_time] in Htf. destruct Htf as [Hlt _].
    rewrite (Qltb_compat _ _ _ Hq). apply Qltb_lt in Hlt. rewrite Hlt.
    rewrite Hf, (decide_final _ _ rf (JStr X) Hfa).
    rewrite Htr'. cbn [fst snd chunks]. repeat split.
    rewrite poll_attempts_polled, polled_after_poll, polled_after_polls.
    unfold w0. rewrite polled_at_loop_start.
    cbn [polled calls_to trace rev filter flat_map app].
    rewrite length_app, length_map. cbn. lia.
  - intros network nfs rf Hp Hn Hfa.
    destruct (run_replies a network t0) as (new & Hnew & Hfail & Hfin).
    rewrite Hp in Hnew. subst new.
    assert (Hy : fst (run a network t0) = Yield (JStr X) Return).
    { rewrite (Hfin rf (JStr X)), Htr'; [reflexivity| |exact Hfa].
      apply in_or_app. right. left. reflexivity. }
    rewrite Hy. cbn [chunks]. repeat split.
    + rewrite poll_attempts_polled, Hp, length_app, length_map. cbn. lia.
    + intro H0. destruct (Z_le_gt_dec (Z.of_nat (List.length nfs)) (max_retries a))
        as [Hle|Hgt]; [exact Hle|].
      destruct Hfail as [v Hv]; [exact H0| |rewrite Hy in Hv; discriminate].
      rewrite filter_app, length_app.
      pose proof (all_not_found nfs Hn) as Hc. unfold result in *. lia.
Qed.

Lemma C1_retries_then_answer_witness :
  fst (run (default_args "hello")
         (submit_ok "c1" :: [poll_not_found 0; poll_not_found (1#2)]
                            ++ poll_final 0 "X" :: []) 0)
  = Yield (JStr "X") Return
  /\ chunks (fst (run (default_args "hello")
         (submit_ok "c1" :: [poll_not_found 0; poll_not_found (1#2)]
                            ++ poll_final 0 "X" :: []) 0)) = [JStr "X"]
  /\ poll_attempts (snd (run (default_args "hello")
         (submit_ok "c1" :: [poll_not_found 0; poll_not_found (1#2)]
                            ++ poll_final 0 "X" :: []) 0)) = 3%nat.
Proof.
  assert (HX : "X"%string <> EmptyString) by discriminate.
  apply (proj1 (C1_retries_then_answer (default_args "hello") 0 "X" HX)
           (submit_ok "c1")
           (envelope (JDict [("conv_id", JStr "c1")])) (JStr "c1")
           [poll_not_found 0; poll_not_found (1#2)] (poll_final 0 "X")
           (envelope (JDict [("is_final", JBool true); ("user_answer", JStr "X")]))
           []).
  - vm_compute. discriminate.
  - reflexivity.
  - reflexivity.
  - reflexivity.
  - vm_compute. discriminate.
  - reflexivity.
  - reflexivity.
  - repeat split; vm_compute; reflexivity.
Defined.

Lemma C2_retry_budget_exhausted_witness :
  exists v,
    fst (run one_retry [submit_ok "c1"; poll_not_found 0; poll_not_found 0] 0)
    = Raise (query_failed v)
    /\ cls (query_failed v) = APIError
    /\ isinstance (query_failed v) TimeoutError = false
    /\ message (query_failed v) = "Failed to query chat status"%string.
Proof.
  apply (C2_retry_budget_exhausted one_retry
           [submit_ok "c1"; poll_not_found 0; poll_not_found 0] 0).
  - vm_compute. discriminate.
  - vm_compute. reflexivity.
Defined.

Lemma C7_empty_final_answer_witness :
  fst (run (default_args "hello") [submit_ok "c1"; poll_final_empty 0] 0) = Return
  /\ chunks (fst (run (default_args "hello") [submit_ok "c1"; poll_final_empty 0] 0)) = []
  /\ ending (fst (run (default_args "hello") [submit_ok "c1"; poll_final_empty 0] 0))
     = Return.
Proof.
  apply (C7_empty_final_answer (default_args "hello")
           [submit_ok "c1"; poll_final_empty 0] 0
           (envelope (JDict [("is_final", JBool true)])) (JStr EmptyString)).
  - vm_compute. left. reflexivity.
  - reflexivity.
  - reflexivity.
Defined.

(** *** The timeout *)

Lemma poll_loop_late (T M : Z) (c : json) (s : Q) (network : list exchange)
    (rc : Z) (w : world) :
  Qltb (now w - s) (inject_Z T) = false ->
  poll_loop T M c s network rc w = (Raise (timed_out T), snd (time_time w)).
Proof.
  intro H. destruct network; [rewrite poll_loop_nil|rewrite poll_loop_cons];
    rewrite H; reflexivity.
Qed.

Lemma poll_loop_trace (T M : Z) (c : json) (s : Q) (network : list exchange) :
  forall (rc : Z) (w : world),
  exists new, trace (snd (poll_loop T M c s network rc w)) = new ++ trace w.
Proof.
  induction network as [|x network IH]; intros rc w.
  - rewrite poll_loop_nil. destruct (Qltb (now w - s) (inject_Z T));
      exists [ReadClock (now w)]; reflexivity.
  - rewrite poll_loop_cons. destruct (Qltb (now w - s) (inject_Z T)).
    + destruct (decide M rc (answer x)).
      * destruct (IH (rc + 1) (slept 1 (after_poll c x w))) as [new Hn].
        rewrite Hn.
        exists (new ++ firstn 3 (trace (slept 1 (after_poll c x w)))).
        rewrite <- app_assoc. reflexivity.
      * destruct (IH rc (slept 1 (after_poll c x w))) as [new Hn].
        rewrite Hn.
        exists (new ++ firstn 3 (trace (slept 1 (after_poll c x w)))).
        rewrite <- app_assoc. reflexivity.
      * exists (firstn 2 (trace (after_poll c x w))). reflexivity.
    + exists [ReadClock (now w)]. reflexivity.
Qed.

Lemma start_time_of_run (a : args) (x : exchange) (network : list exchange)
    (t0 : Q) (r c : json) :
  answer x = inr r ->
  issued_id r = Some c ->
  (0 <= initial_delay a)%Q ->
  start_time_of (snd (run a (x :: network) t0))
  = Some (t0 + took x + initial_delay a)%Q.
Proof.
  intros Hx Hid Hd. unfold run.
  rewrite (chat_completions_loop a x network _ r c Hx Hid Hd).
  destruct (poll_loop_trace (timeout a) (max_retries a) c
              (now (at_loop_start a x (mkWorld t0 []))) network 0
              (at_loop_start a x (mkWorld t0 []))) as [new Hn].
  unfold start_time_of. rewrite Hn, rev_app_distr, flat_map_app. reflexivity.
Qed.

(** C3, as the code has it: in every run of [chat_completions] in which the
    submission succeeds, the initial delay is not negative (so that its
    sleep returns), every poll made is answered by a reply that is not
    final or by a transient failure within the retry budget, every poll is
    begun before [timeout] seconds have elapsed, and the loop test that
    follows finds [timeout] seconds or more elapsed, the generator raises
    [TimeoutError] with the message [Chat timed out] and a suggestion that
    names the configured timeout.  The elapsed time is measured from the
    clock reading taken after the [initial_delay] sleep, and
    [TimeoutError] and [APIError] are unrelated classes. *)
Theorem C3_timeout_after_pending_polls (a : args) (t0 : Q) (submit : exchange)
    (r c : json) (polls rest : list exchange) :
  (0 <= initial_delay a)%Q ->
  answer submit = inr r ->
  issued_id r = Some c ->
  forallb continues polls = true ->
  retries_among polls <= max_retries a ->
  in_time (timeout a) 0 polls ->
  (inject_Z (timeout a) <= elapsed polls)%Q ->
  fst (run a (submit :: polls ++ rest) t0) = Raise (timed_out (timeout a))
  /\ poll_attempts (snd (run a (submit :: polls ++ rest) t0)) = List.length polls
  /\ start_time_of (snd (run a (submit :: polls ++ rest) t0))
     = Some (t0 + took submit + initial_delay a)%Q
  /\ cls (timed_out (timeout a)) = TimeoutError
  /\ message (timed_out (timeout a)) = "Chat timed out"%string
  /\ suggestion (timed_out (timeout a))
     = Some ("The chat did not complete within " ++ str_of_int (timeout a)
             ++ " seconds.")%string
  /\ isinstance (timed_out (timeout a)) APIError = false
  /\ issubclass APIError TimeoutError = false.
Proof.
  intros Hd Hs Hid Hc Hb Ht Hlate.
  split; [|split; [|split; [exact (start_time_of_run a submit _ t0 r c Hs Hid Hd)|
                            repeat split]]];
    unfold run; rewrite (chat_completions_loop a submit _ _ r c Hs Hid Hd);
    set (w0 := at_loop_start a submit (mkWorld t0 []));
    destruct (poll_loop_skip (timeout a) (max_retries a) c (now w0) rest
                polls 0 w0 0%Q Hc Hb Ht) as [Hl Hq]; try lra;
    rewrite Hl, poll_loop_late.
  - reflexivity.
  - apply Qltb_ge. rewrite Hq. lra.
  - cbn [snd]. rewrite poll_attempts_polled, polled_time, polled_after_polls.
    unfold w0. rewrite polled_at_loop_start. cbn [polled calls_to trace rev filter
                                                   flat_map app].
    apply length_map.
  - apply Qltb_ge. rewrite Hq. lra.
Qed.

Lemma C3_timeout_after_pending_polls_witness :
  fst (run hurried (submit_ok "c1" :: [poll_pending 0] ++ [poll_final 0 "X"]) 0)
  = Raise (timed_out 1)
  /\ poll_attempts (snd (run hurried
        (submit_ok "c1" :: [poll_pending 0] ++ [poll_final 0 "X"]) 0)) = 1%nat
  /\ start_time_of (snd (run hurried
        (submit_ok "c1" :: [poll_pending 0] ++ [poll_final 0 "X"]) 0))
     = Some (0 + 0 + 2)%Q
  /\ cls (timed_out 1) = TimeoutError
  /\ message (timed_out 1) = "Chat timed out"%string
  /\ suggestion (timed_out 1)
     = Some ("The chat did not complete within " ++ str_of_int 1 ++ " seconds.")%string
  /\ isinstance (timed_out 1) APIError = false
  /\ issubclass APIError TimeoutError = false.
Proof.
  apply (C3_timeout_after_pending_polls hurried 0 (submit_ok "c1")
           (envelope (JDict [("conv_id", JStr "c1")])) (JStr "c1")
           [poll_pending 0] [poll_final 0 "X"]).
  - vm_compute. discriminate.
  - reflexivity.
  - reflexivity.
  - reflexivity.
  - vm_compute. discriminate.
  - repeat split; vm_compute; reflexivity.
  - vm_compute. discriminate.
Defined.

(** C3, as the claim words it, fails: with a one-second timeout, a first poll
    that is begun in time and takes five seconds to come back with a final
    answer is still delivered.  No final reply arrived within the timeout,
    and yet no [TimeoutError] is raised. *)
Lemma C3_late_final_answer_delivered :
  final_within (timeout hurried)
    (snd (run hurried [submit_ok "c1"; poll_final 5 "X"] 0)) = false
  /\ final_arrivals (snd (run hurried [submit_ok "c1"; poll_final 5 "X"] 0))
     = [(0 + 0 + 2 + 5)%Q]
  /\ fst (run hurried [submit_ok "c1"; poll_final 5 "X"] 0) = Yield (JStr "X") Return
  /\ ~ (exists e, fst (run hurried [submit_ok "c1"; poll_final 5 "X"] 0) = Raise e
                  /\ cls e = TimeoutError).
Proof.
  split; [vm_compute; reflexivity|].
  split; [reflexivity|].
  split; [vm_compute; reflexivity|].
  intros (e & He & _). vm_compute in He. discriminate.
Qed.

(** *** The aggregated answer *)

Lemma collect_chunks (g : gen) :
  forall acc, collect g acc = (ending g, acc ++ chunks g).
Proof.
  induction g as [c rest IH| |e|]; intro acc; cbn [collect ending chunks];
    try (rewrite app_nil_r; reflexivity).
  rewrite IH, <- app_assoc. reflexivity.
Qed.

Lemma join_strings (ss : list string) :
  join (map JStr ss) = inr (fold_right String.append EmptyString ss).
Proof.
  induction ss as [|s ss IH]; cbn [map join fold_right]; [reflexivity|].
  rewrite IH. reflexivity.
Qed.

Lemma chat_completions_answer (a : args) (w : world) (submit : exchange) (r c : json)
    (pre : list exchange) (final : exchange) (rf ans : json) (rest : list exchange) :
  (0 <= initial_delay a)%Q ->
  answer submit = inr r ->
  issued_id r = Some c ->
  forallb continues pre = true ->
  retries_among pre <= max_retries a ->
  answer final = inr rf ->
  final_answer rf = Some ans ->
  in_time (timeout a) 0 (pre ++ [final]) ->
  fst (chat_completions a (submit :: pre ++ final :: rest) w)
  = if truthy ans then Yield ans Return else Return.
Proof.
  intros Hd Hs Hid Hc Hb Hf Hfa Ht.
  rewrite (chat_completions_loop a submit _ _ r c Hs Hid Hd).
  set (w0 := at_loop_start a submit w).
  apply in_time_app in Ht. destruct Ht as [Htr Htf].
  destruct (poll_loop_skip (timeout a) (max_retries a) c (now w0) (final :: rest)
              pre 0 w0 0%Q Hc Hb Htr) as [Hl Hq]; [lra|].
  rewrite Hl, poll_loop_cons.
  cbn [in_time] in Htf. destruct Htf as [Hlt _].
  rewrite (Qltb_compat _ _ _ Hq). apply Qltb_lt in Hlt. rewrite Hlt.
  rewrite Hf, (decide_final _ _ rf ans Hfa). reflexivity.
Qed.

Lemma chat_async_world (text : string) (conv app model : option string) (T : Z)
    (network : list exchange) (w : world) :
  snd (chat_async text conv app model T network w)
  = snd (chat_completions (async_args text conv app model T) network w).
Proof.
  unfold chat_async.
  destruct (chat_completions _ network w) as [g w']. reflexivity.
Qed.

Lemma chat_async_aggregates (text : string) (conv app model : option string) (T : Z)
    (network : list exchange) (w : world) :
  fst (chat_async text conv app model T network w)
  = aggregate (fst (chat_completions (async_args text conv app model T) network w)).
Proof.
  unfold chat_async.
  destruct (chat_completions _ network w) as [g w']. reflexivity.
Qed.

Lemma async_delay (text : string) (conv app model : option string) (T : Z) :
  (0 <= initial_delay (async_args text conv app model T))%Q.
Proof. cbn. discriminate. Qed.

(** C8: [chat_async] returns the concatenation, in the order they were
    yielded, of the chunks of the generator it consumes, which is that of
    [chat_completions]: whatever strings the generator yields before it
    returns, however many, the result is their concatenation in that order,
    and an exception of the generator is let through.  In the scenario where
    the submission returns success with conversation id c1, the first poll
    returns success with [is_final] false and the second poll returns success
    with [is_final] true and [user_answer] Hello!, it returns the string
    Hello!.  The scenario is stated twice: for the answers the network holds
    ready, both polls being begun before the timeout has elapsed; and for the
    replies the call has received. *)
Theorem C8_chat_async_joins_chunks (user_input : string)
    (conv_uid app_code model_name : option string) (timeout : Z) (w : world) :
  (forall network : list exchange,
     fst (chat_async user_input conv_uid app_code model_name timeout network w)
     = aggregate (fst (chat_completions
                         (async_args user_input conv_uid app_code model_name timeout)
                         network w)))
  /\ (forall (g : gen) (ss : list string),
     chunks g = map JStr ss ->
     ending g = Return ->
     aggregate g = Returned (fold_right String.append EmptyString ss))
  /\ (forall (g : gen) (e : exn),
     ending g = Raise e ->
     aggregate g = Raised e)
  /\ (forall (d0 d1 d2 : Q) (rest : list exchange),
     in_time timeout 0 [poll_pending d1; poll_final d2 "Hello!"] ->
     fst (chat_async user_input conv_uid app_code model_name timeout
            (mkExchange d0 (inr (envelope (JDict [("conv_id", JStr "c1")])))
             :: poll_pending d1 :: poll_final d2 "Hello!" :: rest) w)
     = Returned "Hello!"%string)
  /\ (forall (network : list exchange),
     polled (snd (chat_async user_input conv_uid app_code model_name timeout
                    network w))
     = polled w ++ [inr (envelope (JDict [("is_final", JBool false)]));
                    inr (envelope (JDict [("is_final", JBool true);
                                          ("user_answer", JStr "Hello!")]))] ->
     fst (chat_async user_input conv_uid app_code model_name timeout network w)
     = Returned "Hello!"%string).
Proof.
  split; [|split; [|split; [|split]]].
  - intro network. apply chat_async_aggregates.
  - intros g ss Hc He. unfold aggregate.
    rewrite collect_chunks, He, Hc. cbn [app]. rewrite join_strings. reflexivity.
  - intros g e He. unfold aggregate. rewrite collect_chunks, He. reflexivity.
  - intros d0 d1 d2 rest Ht. rewrite chat_async_aggregates.
    pose proof (chat_completions_answer
                  (async_args user_input conv_uid app_code model_name timeout) w
                  (mkExchange d0 (inr (envelope (JDict [("conv_id", JStr "c1")]))))
                  (envelope (JDict [("conv_id", JStr "c1")])) (JStr "c1")
                  [poll_pending d1] (poll_final d2 "Hello!")
                  (envelope (JDict [("is_final", JBool true);
                                    ("user_answer", JStr "Hello!")]))
                  (JStr "Hello!") rest (async_delay _ _ _ _ _)
                  eq_refl eq_refl eq_refl) as H.
    cbn [app] in H.
    rewrite H; [reflexivity| |reflexivity|reflexivity|exact Ht].
    vm_compute. discriminate.
  - intros network Hp. rewrite chat_async_world in Hp.
    destruct (chat_completions_replies
                (async_args user_input conv_uid app_code model_name timeout)
                network w) as (new & Hnew & _ & Hfin).
    rewrite Hp in Hnew. apply app_inv_head in Hnew. subst new.
    specialize (Hfin (envelope (JDict [("is_final", JBool true);
                                       ("user_answer", JStr "Hello!")]))
                     (JStr "Hello!") (or_intror (or_introl eq_refl)) eq_refl).
    rewrite chat_async_aggregates, Hfin. reflexivity.
Qed.

Lemma C8_chat_async_joins_chunks_witness :
  aggregate (Yield (JStr "Hel") (Yield (JStr "lo!") Return)) = Returned "Hello!"%string
  /\ fst (chat_async "Hi" None None None 300
            [mkExchange 0 (inr (envelope (JDict [("conv_id", JStr "c1")])));
             poll_pending (1#4); poll_final (1#4) "Hello!"] (mkWorld 0 []))
     = Returned "Hello!"%string.
Proof.
  split.
  - exact (proj1 (proj2 (C8_chat_async_joins_chunks "Hi" None None None 300
                           (mkWorld 0 [])))
             (Yield (JStr "Hel") (Yield (JStr "lo!") Return))
             ["Hel"%string; "lo!"%string] eq_refl eq_refl).
  - refine (proj1 (proj2 (proj2 (proj2 (C8_chat_async_joins_chunks "Hi" None None
                                          None 300 (mkWorld 0 [])))))
              0%Q (1#4)%Q (1#4)%Q [] _).
    repeat split; vm_compute; reflexivity.
Defined.

(** *** The submitted request *)

Lemma poll_loop_other_calls (m p : string) (T M : Z) (c : json) (s : Q)
    (network : list exchange) :
  (m =? "GET")%string = false ->
  forall (rc : Z) (w : world),
  calls_to m p (snd (poll_loop T M c s network rc w)) = calls_to m p w.
Proof.
  intro Hm.
  assert (Htime : forall w, calls_to m p (snd (time_time w)) = calls_to m p w).
  { intro w. unfold time_time. cbn [snd]. rewrite calls_to_event. cbn [is_call_to].
    rewrite app_nil_r. destruct w. reflexivity. }
  assert (Hpoll : forall x w, calls_to m p (after_poll c x w) = calls_to m p w).
  { intros x w. unfold after_poll, http_get, http_call. cbn [snd].
    rewrite calls_to_event. cbn [is_call_to rq_method]. rewrite String.eqb_sym, Hm.
    cbn [andb]. rewrite app_nil_r.
    rewrite <- (Htime w). reflexivity. }
  induction network as [|x network IH]; intros rc w.
  - rewrite poll_loop_nil. destruct (Qltb (now w - s) (inject_Z T)); apply Htime.
  - rewrite poll_loop_cons. destruct (Qltb (now w - s) (inject_Z T)); [|apply Htime].
    destruct (decide M rc (answer x)); cbn [snd];
      rewrite ?IH, ?calls_to_after_poll; apply Hpoll.
Qed.

Lemma chat_completions_submits (a : args) (x : exchange) (network : list exchange)
    (w : world) :
  calls_to "POST" "/api/v1/chat/completions" (snd (chat_completions a (x :: network) w))
  = calls_to "POST" "/api/v1/chat/completions" w ++ [submission a x w].
Proof.
  assert (Hpost : calls_to "POST" "/api/v1/chat/completions"
                    (snd (http_post "/api/v1/chat/completions" []
                            (Some (Models.model_dump (build_request a))) x w))
                  = calls_to "POST" "/api/v1/chat/completions" w ++ [submission a x w]).
  { unfold http_post, http_call. cbn [snd]. rewrite calls_to_event.
    destruct w. reflexivity. }
  destruct (answer x) as [e|r] eqn:Hx.
  - rewrite <- Hpost. unfold chat_completions, http_post, http_call.
    rewrite Hx. reflexivity.
  - destruct (issued_id r) as [c|] eqn:Hid.
    + destruct (delay_sign (initial_delay a)) as [Hd|Hd];
        [|rewrite (chat_completions_negative_delay a x network w r c Hx Hid Hd);
          exact Hpost].
      rewrite (chat_completions_loop a x network w r c Hx Hid Hd).
      rewrite poll_loop_other_calls by reflexivity.
      rewrite <- Hpost. unfold calls_to, at_loop_start, time_time, slept.
      cbn [snd trace rev]. rewrite !filter_app. cbn [filter is_call_to].
      rewrite !app_nil_r. reflexivity.
    + rewrite <- Hpost. unfold chat_completions, http_post, http_call.
      rewrite Hx. cbn [snd fst]. unfold issued_id in Hid.
      destruct r; try reflexivity.
      rewrite get_dict.
      destruct (truthy (field_of d "success" JNull)); [|reflexivity]. cbn [negb].
      rewrite get_dict.
      destruct (field_of d "data" (JDict [])); try reflexivity.
      rewrite get_dict.
      destruct (truthy (field_of d0 "conv_id" JNull)); [discriminate|reflexivity].
Qed.

Lemma user_name_or_default_not_empty (u : option string) :
  user_name_or_default u <> EmptyString.
Proof.
  destruct u as [s|]; cbn; [|discriminate].
  destruct (s =? EmptyString)%string eqn:E; [discriminate|].
  apply String.eqb_neq. exact E.
Qed.

(** C10: whenever [chat_completions] is called without a [user_name], or
    with the empty string, the payload it submits carries [user_name] equal
    to [cli_user]; a non-empty [user_name] is forwarded unchanged; the
    submitted [user_name] is never empty. *)
Theorem C10_user_name_defaulted (a : args) (x : exchange) (network : list exchange)
    (t0 : Q) :
  submitted (snd (run a (x :: network) t0))
  = [Some (Models.model_dump (build_request a))]
  /\ get (Models.model_dump (build_request a)) "user_name" JNull
     = inr (JStr (user_name_or_default (user_name a)))
  /\ (user_name a = None \/ user_name a = Some EmptyString ->
      user_name_or_default (user_name a) = "cli_user"%string)
  /\ (forall s, user_name a = Some s -> s <> EmptyString ->
      user_name_or_default (user_name a) = s)
  /\ user_name_or_default (user_name a) <> EmptyString.
Proof.
  split; [|split; [|split; [|split]]].
  - unfold submitted, run. rewrite chat_completions_submits. reflexivity.
  - unfold Models.model_dump, build_request. cbn [Models.conv_uid Models.user_input
      Models.messages Models.app_code Models.app_config_code Models.team_mode
      Models.user_name Models.field].
    destruct (conv_uid a), (messages a), (app_code a); reflexivity.
  - intros [H|H]; rewrite H; reflexivity.
  - intros s H Hs. rewrite H. cbn. apply String.eqb_neq in Hs. rewrite Hs. reflexivity.
  - apply user_name_or_default_not_empty.
Qed.

Lemma C10_user_name_defaulted_witness :
  get (Models.model_dump (build_request (default_args "hello"))) "user_name" JNull
  = inr (JStr "cli_user").
Proof.
  exact (proj1 (proj2 (C10_user_name_defaulted (default_args "hello")
                         (submit_ok "c1") [] 0%Q))).
Defined.

(** C6, as the code has it: the request [chat_completions] builds carries
    [user_input], [messages], the token limit and the temperature exactly as
    the caller passed them, without any check, and always the work mode
    [async]; it satisfies the invariant (exactly one of text and messages
    populated, token limit not negative) precisely when the caller's
    arguments do. *)
Theorem C6_request_carries_arguments (a : args) :
  Models.user_input (build_request a) = user_input a
  /\ Models.messages (build_request a) = messages a
  /\ Models.max_new_tokens (build_request a) = max_new_tokens a
  /\ Models.temperature (build_request a) = temperature a
  /\ Models.work_mode (build_request a) = Some "async"%string
  /\ request_invariant (build_request a) = args_invariant a
  /\ get (Models.model_dump (build_request a)) "user_input" JNull
     = inr (JStr (user_input a))
  /\ get (Models.model_dump (build_request a)) "messages" JNull
     = inr (match messages a with Some l => JList l | None => JNull end)
  /\ get (Models.model_dump (build_request a)) "max_new_tokens" JNull
     = inr (match max_new_tokens a with Some n => JInt n | None => JNull end).
Proof.
  repeat split;
    unfold Models.model_dump, build_request;
    destruct (conv_uid a), (messages a), (app_code a), (temperature a),
      (max_new_tokens a), (model_name a); reflexivity.
Qed.

(** C6, as the claim words it, fails: a caller that passes a text, a message
    list and a negative token limit gets all three submitted. *)
Lemma C6_both_populated_and_negative :
  submitted (snd (run unchecked [submit_ok "c1"] 0))
  = [Some (Models.model_dump (build_request unchecked))]
  /\ text_populated (build_request unchecked) = true
  /\ messages_populated (build_request unchecked) = true
  /\ tokens_non_negative (build_request unchecked) = false
  /\ request_invariant (build_request unchecked) <> true.
Proof.
  split; [|repeat split; discriminate].
  unfold submitted, run. rewrite chat_completions_submits. reflexivity.
Qed.

(** *** The transport's failures *)




(** *** Failures reported by the server *)

Lemma chat_completions_submit_failed (a : args) (x : exchange)
    (network : list exchange) (w : world) (d : list (string * json)) :
  answer x = inr (JDict d) ->
  truthy (field_of d "success" JNull) = false ->
  fst (chat_completions a (x :: network) w) = Raise (submit_failed (JDict d)).
Proof.
  intros Hx Hs. unfold chat_completions, http_post, http_call. rewrite Hx.
  cbn [snd fst]. rewrite get_dict, Hs. reflexivity.
Qed.

Lemma decide_failure (M rc : Z) (v : json) :
  failure_reported v = true ->
  decide M rc (inr v)
  = if session_not_found v && (rc <? M) then Retry else Stop (Raise (query_failed v)).
Proof.
  unfold failure_reported, decide, session_not_found, reports_failure.
  destruct v; try discriminate. intro H. rewrite H. reflexivity.
Qed.

(** A reply that reports failure ends the loop with the query-failed error,
    unless it is the transient failure and fewer than [max_retries] transient
    failures came before it. *)
Lemma poll_loop_failures (T M : Z) (c : json) (s : Q) (network : list exchange) :
  forall (rc : Z) (w : world),
  exists new : list (result json),
    polled (snd (poll_loop T M c s network rc w)) = polled w ++ new
    /\ forall pre v post,
         new = pre ++ inr v :: post ->
         failure_reported v = true ->
         session_not_found v = false
         \/ M <= rc + Z.of_nat (List.length (filter is_not_found pre)) ->
         post = [] /\ fst (poll_loop T M c s network rc w) = Raise (query_failed v).
Proof.
  assert (Hnone : forall (g : gen) (rc : Z) (w : world),
    exists new : list (result json),
      polled (snd (g, snd (time_time w))) = polled w ++ new
      /\ forall pre v post,
           new = pre ++ inr v :: post ->
           failure_reported v = true ->
           session_not_found v = false
           \/ M <= rc + Z.of_nat (List.length (filter is_not_found pre)) ->
           post = [] /\ fst (g, snd (time_time w)) = Raise (query_failed v)).
  { intros g rc w. exists []. cbn [snd]. rewrite polled_time, app_nil_r.
    split; [reflexivity|]. intros pre v post H. destruct pre; discriminate. }
  induction network as [|x network IH]; intros rc w.
  - rewrite poll_loop_nil. destruct (Qltb (now w - s) (inject_Z T)); apply Hnone.
  - rewrite poll_loop_cons. destruct (Qltb (now w - s) (inject_Z T)); [|apply Hnone].
    destruct (decide M rc (answer x)) eqn:D.
    + pose proof (decide_retry _ _ _ D) as [Hn Hlt].
      destruct (IH (rc + 1) (slept 1 (after_poll c x w))) as (new & Hp & Hf).
      exists (answer x :: new).
      rewrite Hp, polled_sleep, polled_after_poll, <- app_assoc.
      split; [reflexivity|]. intros pre v post Hnew Hv Hb.
      destruct pre as [|p pre]; cbn [app] in Hnew; injection Hnew as Hx Hnew.
      * rewrite Hx in Hn. cbn [is_not_found] in Hn. cbn [filter List.length] in Hb.
        destruct Hb as [Hb|Hb]; [congruence|lia].
      * apply (Hf pre v post Hnew Hv). destruct Hb as [Hb|Hb]; [left; exact Hb|].
        right. cbn [filter] in Hb. rewrite <- Hx, Hn in Hb. cbn [List.length] in Hb.
        lia.
    + pose proof (decide_wait _ _ _ D) as [Hn _].
      destruct (IH rc (slept 1 (after_poll c x w))) as (new & Hp & Hf).
      exists (answer x :: new).
      rewrite Hp, polled_sleep, polled_after_poll, <- app_assoc.
      split; [reflexivity|]. intros pre v post Hnew Hv Hb.
      destruct pre as [|p pre]; cbn [app] in Hnew; injection Hnew as Hx Hnew.
      * rewrite Hx, (decide_failure M rc v Hv) in D.
        destruct (session_not_found v && (rc <? M)); discriminate.
      * apply (Hf pre v post Hnew Hv). destruct Hb as [Hb|Hb]; [left; exact Hb|].
        right. cbn [filter] in Hb. rewrite <- Hx, Hn in Hb. exact Hb.
    + exists [answer x]. cbn [snd fst]. rewrite polled_after_poll.
      split; [reflexivity|]. intros pre v post Hnew Hv Hb.
      destruct pre as [|p pre]; cbn [app] in Hnew; injection Hnew as Hx Hnew;
        [|destruct pre; discriminate].
      split; [symmetry; exact Hnew|].
      rewrite Hx, (decide_failure M rc v Hv) in D.
      cbn [filter List.length] in Hb.
      destruct Hb as [Hb|Hb].
      * rewrite Hb in D. cbn [andb] in D. injection D as <-. reflexivity.
      * assert (Hge : (rc <? M) = false) by (apply Z.ltb_ge; lia).
        rewrite Hge, andb_false_r in D. injection D as <-. reflexivity.
Qed.

Lemma chat_completions_failures (a : args) (network : list exchange) (w : world)
    (pre post : list (result json)) (v : json) :
  polled (snd (chat_completions a network w)) = polled w ++ pre ++ inr v :: post ->
  failure_reported v = true ->
  session_not_found v = false
  \/ max_retries a <= Z.of_nat (List.length (filter is_not_found pre)) ->
  post = [] /\ fst (chat_completions a network w) = Raise (query_failed v).
Proof.
  intros Hp Hv Hb.
  destruct (chat_completions_cases a network w)
    as [(x & rest & r & c & -> & Hx & Hid & Hd)|(Hq & _ & _)].
  - rewrite (chat_completions_loop a x rest _ r c Hx Hid Hd) in *.
    destruct (poll_loop_failures (timeout a) (max_retries a) c
                (now (at_loop_start a x w)) rest 0
                (at_loop_start a x w)) as (new & Hnew & Hf).
    rewrite Hnew, polled_at_loop_start in Hp. apply app_inv_head in Hp.
    exact (Hf pre v post Hp Hv Hb).
  - rewrite Hq in Hp. rewrite <- (app_nil_r (polled w)) in Hp at 1.
    apply app_inv_head in Hp. destruct pre; discriminate.
Qed.

(** C5, as the code has it: when the server answers with [success] false,
    [chat_completions] and [chat_async] raise [APIError] for the submission,
    and for a poll, whichever poll of the run it is, unless the code is the
    transient E0103 and fewer than [max_retries] such replies came before it;
    [delete_conversation] and [stop_chat] return the [success] flag without
    raising; [list_conversations] and [list_models] return the empty list
    without raising. *)
Theorem C5_server_reported_failure (d : list (string * json)) :
  truthy (field_of d "success" JNull) = false ->
  (forall a x network w, answer x = inr (JDict d) ->
     fst (chat_completions a (x :: network) w) = Raise (submit_failed (JDict d))
     /\ cls (submit_failed (JDict d)) = APIError)
  /\ (forall text conv app model T x network w,
     answer x = inr (JDict d) ->
     fst (chat_async text conv app model T (x :: network) w)
     = Raised (submit_failed (JDict d)))
  /\ (forall a network w pre post,
     polled (snd (chat_completions a network w))
     = polled w ++ pre ++ inr (JDict d) :: post ->
     session_not_found (JDict d) = false
     \/ max_retries a <= Z.of_nat (List.length (filter is_not_found pre)) ->
     post = []
     /\ fst (chat_completions a network w) = Raise (query_failed (JDict d))
     /\ cls (query_failed (JDict d)) = APIError)
  /\ (forall text conv app model T network w pre post,
     polled (snd (chat_async text conv app model T network w))
     = polled w ++ pre ++ inr (JDict d) :: post ->
     session_not_found (JDict d) = false
     \/ 10 <= Z.of_nat (List.length (filter is_not_found pre)) ->
     post = []
     /\ fst (chat_async text conv app model T network w)
        = Raised (query_failed (JDict d)))
  /\ (forall conv x w, answer x = inr (JDict d) ->
     fst (delete_conversation conv x w) = inr (field_of d "success" (JBool false)))
  /\ (forall session x w, answer x = inr (JDict d) ->
     fst (stop_chat session x w) = inr (field_of d "success" (JBool false)))
  /\ (lookup "success" d = Some (JBool false) ->
     field_of d "success" (JBool false) = JBool false)
  /\ (forall (ConversationResponse : Type) new_ConversationResponse
            user page page_size x w,
     answer x = inr (JDict d) ->
     fst (Listing.list_conversations ConversationResponse new_ConversationResponse
            user page page_size x w) = inr [])
  /\ (forall (ModelInfo : Type) new_ModelInfo x w,
     answer x = inr (JDict d) ->
     fst (Listing.list_models ModelInfo new_ModelInfo x w) = inr []).
Proof.
  intro Hs.
  assert (Hv : failure_reported (JDict d) = true).
  { cbn. rewrite Hs. reflexivity. }
  split; [|split; [|split; [|split; [|split; [|split; [|split; [|split]]]]]]].
  - intros a x network w Hx. split; [|reflexivity].
    apply chat_completions_submit_failed; assumption.
  - intros text conv app model T x network w Hx.
    rewrite chat_async_aggregates,
      (chat_completions_submit_failed _ x network w d Hx Hs).
    reflexivity.
  - intros a network w pre post Hp Hb.
    destruct (chat_completions_failures a network w pre post (JDict d) Hp Hv Hb)
      as [Hpost Hr].
    repeat split; assumption.
  - intros text conv app model T network w pre post Hp Hb.
    rewrite chat_async_world in Hp.
    destruct (chat_completions_failures _ network w pre post (JDict d) Hp Hv Hb)
      as [Hpost Hr].
    split; [exact Hpost|]. rewrite chat_async_aggregates, Hr. reflexivity.
  - intros conv x w Hx. unfold delete_conversation, http_post, http_call.
    cbn [fst]. rewrite Hx. reflexivity.
  - intros session x w Hx. unfold stop_chat, http_post, http_call.
    cbn [fst]. rewrite Hx. reflexivity.
  - intro H. unfold field_of. rewrite H. reflexivity.
  - intros CR new user page page_size x w Hx.
    unfold Listing.list_conversations, http_get, http_call. cbn [fst]. rewrite Hx.
    cbn [bind]. rewrite get_dict. cbn [bind]. rewrite Hs. reflexivity.
  - intros MI new x w Hx.
    unfold Listing.list_models, http_get, http_call. cbn [fst]. rewrite Hx.
    cbn [bind]. rewrite get_dict. cbn [bind]. rewrite Hs. reflexivity.
Qed.

Lemma C5_server_reported_failure_witness :
  ([] = @nil (result json)
   /\ fst (chat_completions (default_args "hello")
             [submit_ok "c1"; poll_pending 0; poll_failed 0] (mkWorld 0 []))
      = Raise (query_failed (JDict [("success", JBool false); ("code", JStr "E9999")]))
   /\ cls (query_failed (JDict [("success", JBool false); ("code", JStr "E9999")]))
      = APIError)
  /\ fst (Listing.list_conversations json (fun item => inr item) None 1 20
            (mkExchange 0 (inr (JDict [("success", JBool false);
                                       ("code", JStr "E9999")])))
            (mkWorld 0 [])) = inr [].
Proof.
  split.
  - apply (proj1 (proj2 (proj2
             (C5_server_reported_failure
                [("success", JBool false); ("code", JStr "E9999")] eq_refl)))
             (default_args "hello") [submit_ok "c1"; poll_pending 0; poll_failed 0]
             (mkWorld 0 []) [inr (envelope (JDict [("is_final", JBool false)]))] []).
    + vm_compute. reflexivity.
    + left. reflexivity.
  - exact (proj1 (proj2 (proj2 (proj2 (proj2 (proj2 (proj2 (proj2
             (C5_server_reported_failure
                [("success", JBool false); ("code", JStr "E9999")] eq_refl))))))))
             json (fun item => inr item) None 1 20
             (mkExchange 0 (inr (JDict [("success", JBool false);
                                        ("code", JStr "E9999")])))
             (mkWorld 0 []) eq_refl).
Defined.

(** C5, as the claim words it, fails: on a response with [success] false,
    [list_conversations] raises nothing; it returns the empty list. *)
Lemma C5_list_conversations_swallows_failure :
  ~ (exists e,
       fst (Listing.list_conversations json (fun item => inr item) None 1 20
              (mkExchange 0 (inr (JDict [("success", JBool false);
                                         ("err_msg", JStr "database down")])))
              (mkWorld 0 [])) = inl e
       /\ cls e = APIError).
Proof.
  intros (e & He & _). cbn in He. discriminate.
Qed.

(** *** The model feed *)

Lemma eqb_true (a b : json) :
  eqb a b = true ->
  (a = JNull /\ b = JNull)
  \/ (exists s, a = JStr s /\ b = JStr s)
  \/ (exists x y, as_number a = Some x /\ as_number b = Some y /\ (x == y)%Q).
Proof.
  destruct a, b; cbn [eqb as_number]; try discriminate; intro H;
    try (right; right; eexists; eexists; split; [reflexivity|split; [reflexivity|]];
         apply Qeq_bool_iff; exact H).
  - left. split; reflexivity.
  - right. left. apply String.eqb_eq in H. subst. eexists. split; reflexivity.
Qed.

Lemma eqb_numbers (a b : json) (x y : Q) :
  as_number a = Some x -> as_number b = Some y -> eqb a b = Qeq_bool x y.
Proof.
  destruct a, b; cbn [eqb as_number]; try discriminate;
    intros Ha Hb; injection Ha as <-; injection Hb as <-; reflexivity.
Qed.

Lemma eqb_trans (a b c : json) :
  eqb a b = true -> eqb b c = true -> eqb a c = true.
Proof.
  intros Hab Hbc.
  destruct (eqb_true a b Hab) as [[-> ->]|[(s & -> & ->)|(x & y & Hx & Hy & Hxy)]];
    try exact Hbc.
  destruct (eqb_true b c Hbc) as [[-> ->]|[(s & -> & ->)|(y' & z & Hy' & Hz & Hyz)]];
    try discriminate.
  rewrite Hy in Hy'. injection Hy' as <-.
  rewrite (eqb_numbers a c x z Hx Hz). apply Qeq_bool_iff.
  rewrite Hxy. exact Hyz.
Qed.

Lemma filter_filter_and {A : Type} (f g : A -> bool) (l : list A) :
  filter f (filter g l) = filter (fun x => g x && f x) l.
Proof.
  induction l as [|x l IH]; cbn [filter]; [reflexivity|].
  destruct (g x); cbn [filter andb]; rewrite IH; reflexivity.
Qed.

Lemma filter_absorbs {A : Type} (f g : A -> bool) (l : list A) :
  (forall x, f x = true -> g x = true) ->
  filter f (filter g l) = filter f l.
Proof.
  intro H. rewrite filter_filter_and. apply filter_ext. intro x.
  destruct (f x) eqn:E.
  - rewrite (H x E). reflexivity.
  - apply andb_false_r.
Qed.

(** The names not yet seen, as a filter on the entries. *)
Lemma unseen_cons (seen : list json) (name : json) (y : json) :
  negb (existsb (eqb (name_of y)) (name :: seen))
  = negb (eqb (name_of y) name) && negb (existsb (eqb (name_of y)) seen).
Proof. cbn [existsb]. apply negb_orb. Qed.

Lemma keep_healthy_refines (ModelInfo : Type) (new_ModelInfo : json -> result ModelInfo) :
  forall (items seen : list json) (healthy_models : list ModelInfo),
  walkable items = true ->
  Listing.keep_healthy ModelInfo new_ModelInfo items seen healthy_models
  = bind (Listing.comprehension new_ModelInfo
            (filter (fun y => negb (existsb (eqb (name_of y)) seen))
                    (healthy_named_first items)))
         (fun l => inr (healthy_models ++ l)).
Proof.
  induction items as [|item items IH]; intros seen acc Hw.
  - cbn. rewrite app_nil_r. reflexivity.
  - cbn [walkable forallb] in Hw. apply andb_true_iff in Hw.
    destruct Hw as [Hi Hw]. apply andb_true_iff in Hi. destruct Hi as [Hd Hh].
    destruct item as [| | | | | |d]; try discriminate.
    cbn [Listing.keep_healthy]. rewrite get_dict. cbn [bind].
    unfold healthy_named_first. cbn [filter].
    change (is_healthy (JDict d)) with (truthy (field_of d "healthy" JNull)).
    change (name_of (JDict d)) with (field_of d "model_name" JNull) in *.
    destruct (truthy (field_of d "healthy" JNull)); cbn [andb];
      [|apply IH; exact Hw].
    rewrite get_dict. cbn [bind].
    destruct (truthy (field_of d "model_name" JNull)); [|apply IH; exact Hw].
    rewrite Hh. cbn [negb first_by_name filter].
    change (name_of (JDict d)) with (field_of d "model_name" JNull).
    fold (healthy_named_first items).
    destruct (existsb (eqb (field_of d "model_name" JNull)) seen) eqn:Hseen;
      cbn [negb].
    + rewrite IH by exact Hw. f_equal. f_equal. symmetry. apply filter_absorbs.
      intros y Hy. apply negb_true_iff. apply negb_true_iff in Hy.
      destruct (eqb (name_of y) (field_of d "model_name" JNull)) eqn:E; [|reflexivity].
      rewrite <- Hy. symmetry. apply existsb_exists in Hseen.
      destruct Hseen as (s & Hs & Hds). apply existsb_exists. exists s.
      split; [exact Hs|]. exact (eqb_trans _ _ _ E Hds).
    + cbn [Listing.comprehension]. rewrite filter_filter_and.
      destruct (new_ModelInfo (JDict d)) as [e|m]; cbn [bind]; [reflexivity|].
      rewrite IH by exact Hw.
      rewrite (filter_ext _ _ (unseen_cons seen (field_of d "model_name" JNull))).
      destruct (Listing.comprehension new_ModelInfo _) as [e|l]; cbn [bind];
        [reflexivity|].
      rewrite <- app_assoc. reflexivity.
Qed.

Lemma filter_all {A : Type} (l : list A) : filter (fun _ => true) l = l.
Proof. induction l as [|x l IH]; cbn; [|rewrite IH]; reflexivity. Qed.

Lemma bind_ret {A : Type} (r : result A) : bind r (fun a => inr a) = r.
Proof. destruct r; reflexivity. Qed.

(** C9, as the code has it: on a successful feed, [list_models] returns
    exactly the healthy entries that carry a non-empty [model_name],
    deduplicated by [model_name], keeping for each name the first occurrence
    in the order the server returned them; in particular, on a feed of two
    healthy entries with the same non-empty name it returns exactly one
    entry, the first. *)
Theorem C9_list_models_healthy_named_first (ModelInfo : Type)
    (new_ModelInfo : json -> result ModelInfo) (x : exchange) (w : world)
    (d : list (string * json)) (items : list json) :
  answer x = inr (JDict d) ->
  truthy (field_of d "success" JNull) = true ->
  lookup "data" d = Some (JList items) ->
  walkable items = true ->
  fst (Listing.list_models ModelInfo new_ModelInfo x w)
  = Listing.comprehension new_ModelInfo (healthy_named_first items)
  /\ (forall first second n m,
        items = [first; second] ->
        is_healthy first = true -> is_healthy second = true ->
        name_of first = JStr n -> name_of second = JStr n -> n <> EmptyString ->
        new_ModelInfo first = inr m ->
        fst (Listing.list_models ModelInfo new_ModelInfo x w) = inr [m]).
Proof.
  intros Hx Hs Hd Hw.
  assert (Hmain : fst (Listing.list_models ModelInfo new_ModelInfo x w)
                  = Listing.comprehension new_ModelInfo (healthy_named_first items)).
  { unfold Listing.list_models, http_get, http_call. cbn [fst]. rewrite Hx.
    cbn [bind]. rewrite get_dict. cbn [bind]. rewrite Hs.
    rewrite get_dict. cbn [bind]. unfold field_of, getitem. rewrite Hd.
    destruct items as [|item items]; [reflexivity|].
    cbn [truthy bind iter].
    rewrite (keep_healthy_refines ModelInfo new_ModelInfo _ [] [] Hw).
    cbn [existsb negb]. rewrite filter_all. cbn [app]. apply bind_ret. }
  split; [exact Hmain|].
  intros first second n m -> Hf Hsnd Hn1 Hn2 Hne Hm. rewrite Hmain.
  unfold healthy_named_first. cbn [filter].
  assert (Ht : truthy (JStr n) = true).
  { cbn. apply negb_true_iff. apply String.eqb_neq. exact Hne. }
  rewrite Hf, Hsnd, Hn1, Hn2, Ht. cbn [andb first_by_name filter].
  rewrite Hn1, Hn2. cbn [eqb]. rewrite String.eqb_refl. cbn [negb].
  cbn [Listing.comprehension bind]. rewrite Hm. reflexivity.
Qed.

Lemma C9_list_models_healthy_named_first_witness :
  fst (Listing.list_models json (fun item => inr item)
         (feed_of [model_entry "gpt" "a"; model_entry "gpt" "b"]) (mkWorld 0 []))
  = inr [model_entry "gpt" "a"].
Proof.
  refine (proj2 (C9_list_models_healthy_named_first json (fun item => inr item)
                   (feed_of [model_entry "gpt" "a"; model_entry "gpt" "b"])
                   (mkWorld 0 [])
                   [("success", JBool true);
                    ("data", JList [model_entry "gpt" "a"; model_entry "gpt" "b"])]
                   [model_entry "gpt" "a"; model_entry "gpt" "b"]
                   eq_refl eq_refl eq_refl eq_refl)
            (model_entry "gpt" "a") (model_entry "gpt" "b") "gpt"%string
            (model_entry "gpt" "a") eq_refl eq_refl eq_refl eq_refl eq_refl _ eq_refl).
  discriminate.
Defined.

(** C9, as the claim words it, fails: a healthy entry whose [model_name] is
    the empty string is one of the healthy entries, yet [list_models] drops
    it; and of two healthy entries with that same name it returns none. *)
Lemma C9_nameless_healthy_entry_dropped :
  Listing.comprehension (fun item => inr item) (healthy_first [nameless])
  = inr [nameless]
  /\ fst (Listing.list_models json (fun item => inr item) (feed_of [nameless])
            (mkWorld 0 [])) = inr []
  /\ fst (Listing.list_models json (fun item => inr item) (feed_of [nameless])
            (mkWorld 0 []))
     <> Listing.comprehension (fun item => inr item) (healthy_first [nameless])
  /\ is_healthy nameless = true
  /\ fst (Listing.list_models json (fun item => inr item)
            (feed_of [nameless; nameless]) (mkWorld 0 [])) = inr [].
Proof.
  repeat split; try reflexivity. cbn. discriminate.
Qed.

(** ** Further properties of the polling protocol *)

Lemma decide_stop_shape (M rc : Z) (r : result json) (g : gen) :
  decide M rc r = Stop g ->
  g = Return
  \/ (exists c, g = Yield c Return /\ truthy c = true)
  \/ (r = inl match g with Raise e => e | _ => no_get end /\ exists e, g = Raise e)
  \/ (exists e, g = Raise e /\ (cls e = APIError \/ cls e = AttributeError)).
Proof.
  unfold decide. destruct r as [e|v].
  - intro H. injection H as <-. right. right. left. split; [reflexivity|].
    exists e. reflexivity.
  - destruct v; try (intro H; injection H as <-; right; right; right;
                     exists no_get; split; [reflexivity|right; reflexivity]).
    destruct (negb (truthy (field_of d "success" JNull))).
    + destruct (eqb (field_of d "code" (JStr EmptyString)) (JStr "E0103") && (rc <? M));
        [discriminate|].
      intro H. injection H as <-. right. right. right.
      eexists. split; [reflexivity|left; reflexivity].
    + destruct (field_of d "data" (JDict []));
        try (intro H; injection H as <-; right; right; right;
             exists no_get; split; [reflexivity|right; reflexivity]).
      destruct (truthy (field_of d0 "is_final" (JBool false))); [|discriminate].
      destruct (truthy (field_of d0 "user_answer" (JStr EmptyString))) eqn:E;
        intro H; injection H as <-.
      * right. left. eexists. split; [reflexivity|exact E].
      * left. reflexivity.
Qed.

Lemma poll_loop_shape (T M : Z) (c : json) (s : Q) (network : list exchange) :
  forall (rc : Z) (w : world),
  at_most_one_chunk (fst (poll_loop T M c s network rc w)).
Proof.
  assert (Hlate : forall w : world,
            at_most_one_chunk (fst (Raise (timed_out T), snd (time_time w)))).
  { intro w. right. right. left. eexists. reflexivity. }
  induction network as [|x network IH]; intros rc w.
  - rewrite poll_loop_nil. destruct (Qltb (now w - s) (inject_Z T)); [|apply Hlate].
    right. left. reflexivity.
  - rewrite poll_loop_cons. destruct (Qltb (now w - s) (inject_Z T)); [|apply Hlate].
    destruct (decide M rc (answer x)) eqn:D; try apply IH.
    cbn [fst]. apply decide_stop_shape in D.
    destruct D as [->|[(ch & -> & Hc)|[(_ & e & ->)|(e & -> & _)]]].
    + left. reflexivity.
    + right. right. right. exists ch. split; [reflexivity|exact Hc].
    + right. right. left. exists e. reflexivity.
    + right. right. left. exists e. reflexivity.
Qed.

(** The submission did not lead to the loop: the call ends with an
    exception, in the world the submission left. *)
Lemma chat_completions_no_loop (a : args) (x : exchange) (network : list exchange)
    (w : world) :
  (forall r, answer x = inr r -> issued_id r = None) ->
  snd (chat_completions a (x :: network) w)
  = snd (http_post "/api/v1/chat/completions" []
           (Some (Models.model_dump (build_request a))) x w)
  /\ exists e, fst (chat_completions a (x :: network) w) = Raise e
     /\ (answer x = inl e \/ cls e = APIError \/ cls e = AttributeError).
Proof.
  intro Hnone. unfold chat_completions, http_post, http_call. cbn [snd fst].
  destruct (answer x) as [e|r] eqn:Hx.
  - split; [reflexivity|]. exists e. split; [reflexivity|left; reflexivity].
  - specialize (Hnone r eq_refl). unfold issued_id in Hnone.
    destruct r; try (split; [reflexivity|]; eexists; split;
                     [reflexivity|right; right; reflexivity]).
    rewrite get_dict.
    destruct (truthy (field_of d "success" JNull)); cbn [negb].
    + rewrite get_dict.
      destruct (field_of d "data" (JDict []));
        try (split; [reflexivity|]; eexists; split;
             [reflexivity|right; right; reflexivity]).
      rewrite get_dict.
      destruct (truthy (field_of d0 "conv_id" JNull)); [discriminate|]. cbn [negb].
      split; [reflexivity|]. eexists. split; [reflexivity|right; left; reflexivity].
    + split; [reflexivity|]. eexists. split; [reflexivity|right; left; reflexivity].
Qed.

Lemma chat_completions_shape (a : args) (network : list exchange) (w : world) :
  at_most_one_chunk (fst (chat_completions a network w)).
Proof.
  destruct network as [|x network].
  - right. left. reflexivity.
  - destruct (answer x) as [e|r] eqn:Hx.
    + destruct (chat_completions_no_loop a x network w) as [_ (e' & He & _)].
      { intros r Hr. rewrite Hx in Hr. discriminate. }
      right. right. left. exists e'. exact He.
    + destruct (issued_id r) as [c|] eqn:Hid.
      * destruct (delay_sign (initial_delay a)) as [Hd|Hd].
        -- rewrite (chat_completions_loop a x network w r c Hx Hid Hd).
           apply poll_loop_shape.
        -- rewrite (chat_completions_negative_delay a x network w r c Hx Hid Hd).
           right. right. left. exists negative_sleep. reflexivity.
      * destruct (chat_completions_no_loop a x network w) as [_ (e' & He & _)].
        { intros r' Hr. rewrite Hx in Hr. injection Hr as <-. exact Hid. }
        right. right. left. exists e'. exact He.
Qed.

(** X1: the generator of [chat_completions] never yields more than one
    chunk: it returns at once, or yields one truthy chunk and returns, or
    raises, whatever the server sends. *)
Theorem chat_completions_yields_at_most_once (a : args) (network : list exchange)
    (w : world) :
  at_most_one_chunk (fst (chat_completions a network w))
  /\ (List.length (chunks (fst (chat_completions a network w))) <= 1)%nat
  /\ Forall (fun c => truthy c = true) (chunks (fst (chat_completions a network w))).
Proof.
  pose proof (chat_completions_shape a network w) as H.
  split; [exact H|].
  destruct H as [->|[->|[(e & ->)|(c & -> & Hc)]]]; cbn; repeat constructor.
  exact Hc.
Qed.



(** *** Exceptions of the transport during polling *)

Lemma poll_loop_exception (T M : Z) (c : json) (s : Q) (network : list exchange)
    (e : exn) :
  forall (rc : Z) (w : world),
  In (inl e) (polled (snd (poll_loop T M c s network rc w))) ->
  In (inl e) (polled w) \/ fst (poll_loop T M c s network rc w) = Raise e.
Proof.
  induction network as [|x network IH]; intros rc w.
  - rewrite poll_loop_nil. destruct (Qltb (now w - s) (inject_Z T));
      cbn [snd]; rewrite polled_time; intro H; left; exact H.
  - rewrite poll_loop_cons. destruct (Qltb (now w - s) (inject_Z T));
      [|cbn [snd]; rewrite polled_time; intro H; left; exact H].
    destruct (decide M rc (answer x)) eqn:D.
    + intro H. destruct (IH _ _ H) as [Hin|Hr]; [|right; exact Hr].
      rewrite polled_sleep, polled_after_poll in Hin.
      apply in_app_or in Hin. destruct Hin as [Hin|[Hx|[]]]; [left; exact Hin|].
      rewrite Hx in D. discriminate.
    + intro H. destruct (IH _ _ H) as [Hin|Hr]; [|right; exact Hr].
      rewrite polled_sleep, polled_after_poll in Hin.
      apply in_app_or in Hin. destruct Hin as [Hin|[Hx|[]]]; [left; exact Hin|].
      rewrite Hx in D. discriminate.
    + cbn [snd fst]. rewrite polled_after_poll. intro Hin.
      apply in_app_or in Hin. destruct Hin as [Hin|[Hx|[]]]; [left; exact Hin|].
      rewrite Hx in D. cbn in D. injection D as <-. right. reflexivity.
Qed.

(** X3: an exception the transport raises on a poll is never retried and
    never swallowed: in every run of [chat_completions] in which a poll
    raised, the generator raises that very exception. *)
Theorem poll_exception_propagates (a : args) (network : list exchange) (t0 : Q)
    (e : exn) :
  In (inl e) (polled (snd (run a network t0))) ->
  fst (run a network t0) = Raise e.
Proof.
  unfold run. intro Hin.
  destruct (chat_completions_cases a network (mkWorld t0 []))
    as [(x & rest & r & c & -> & Hx & Hid & Hd)|(Hp & _ & _)].
  - rewrite (chat_completions_loop a x rest _ r c Hx Hid Hd) in *.
    destruct (poll_loop_exception _ _ _ _ _ _ _ _ Hin) as [H|H]; [|exact H].
    rewrite polled_at_loop_start in H. destruct H.
  - rewrite Hp in Hin. destruct Hin.
Qed.

Lemma poll_exception_propagates_witness :
  fst (run (default_args "hello")
         [submit_ok "c1"; poll_pending 0;
          mkExchange 0 (inl (mkAPIError "Network error" None None
                               (Some "timed out"%string) None))] 0)
  = Raise (mkAPIError "Network error" None None (Some "timed out"%string) None).
Proof.
  apply (poll_exception_propagates (default_args "hello")
           [submit_ok "c1"; poll_pending 0;
            mkExchange 0 (inl (mkAPIError "Network error" None None
                                 (Some "timed out"%string) None))] 0).
  vm_compute. right. left. reflexivity.
Defined.

(** *** The requests and the sleeps of the loop *)

Lemma sleeps_event (t : Q) (e : event) (tr : list event) :
  sleeps (mkWorld t (e :: tr)) = sleeps (mkWorld t tr) ++ sleep_of e.
Proof.
  unfold sleeps, history. cbn [trace rev]. rewrite flat_map_app. cbn.
  rewrite app_nil_r. reflexivity.
Qed.

Lemma sleeps_after_poll (c : json) (x : exchange) (w : world) :
  sleeps (slept 1 (after_poll c x w)) = sleeps w ++ [1%Q].
Proof.
  unfold slept, after_poll, http_get, http_call, time_time.
  cbn [snd fst now trace]. rewrite !sleeps_event. cbn [sleep_of].
  rewrite !app_nil_r. destruct w. reflexivity.
Qed.

Lemma sleeps_stop (c : json) (x : exchange) (w : world) :
  sleeps (after_poll c x w) = sleeps w.
Proof.
  unfold after_poll, http_get, http_call, time_time.
  cbn [snd fst now trace]. rewrite !sleeps_event. cbn [sleep_of].
  rewrite !app_nil_r. destruct w. reflexivity.
Qed.

Lemma sleeps_time (w : world) : sleeps (snd (time_time w)) = sleeps w.
Proof.
  unfold time_time. cbn [snd]. rewrite sleeps_event. cbn [sleep_of].
  rewrite app_nil_r. destruct w. reflexivity.
Qed.

Lemma poll_requests_after_poll (c : json) (x : exchange) (w : world) :
  poll_requests (after_poll c x w) = poll_requests w ++ [poll_request c].
Proof.
  unfold poll_requests, after_poll, http_get, http_call, time_time.
  cbn [snd fst now trace].
  rewrite calls_to_event. cbn [is_call_to rq_method rq_path].
  rewrite calls_to_event. cbn [is_call_to].
  rewrite app_nil_r, flat_map_app. cbn.
  destruct w as [t tr]. reflexivity.
Qed.

Lemma poll_requests_sleep (d : Q) (w : world) :
  poll_requests (slept d w) = poll_requests w.
Proof.
  unfold poll_requests, slept. rewrite calls_to_event. cbn [is_call_to].
  rewrite app_nil_r. destruct w. reflexivity.
Qed.

Lemma poll_requests_time (w : world) :
  poll_requests (snd (time_time w)) = poll_requests w.
Proof.
  unfold poll_requests, time_time. cbn [snd]. rewrite calls_to_event.
  cbn [is_call_to]. rewrite app_nil_r. destruct w. reflexivity.
Qed.

Lemma repeat_snoc {A : Type} (a : A) (n : nat) : repeat a n ++ [a] = a :: repeat a n.
Proof.
  induction n as [|n IH]; cbn; [reflexivity|]. rewrite IH. reflexivity.
Qed.

Lemma poll_loop_cadence (T M : Z) (c : json) (s : Q) (network : list exchange) :
  forall (rc : Z) (w : world),
  exists n k : nat,
    sleeps (snd (poll_loop T M c s network rc w)) = sleeps w ++ repeat 1%Q n
    /\ poll_requests (snd (poll_loop T M c s network rc w))
       = poll_requests w ++ repeat (poll_request c) k
    /\ (n <= k <= S n)%nat.
Proof.
  assert (Hnone : forall (g : gen) (w : world),
    exists n k : nat,
      sleeps (snd (g, snd (time_time w))) = sleeps w ++ repeat 1%Q n
      /\ poll_requests (snd (g, snd (time_time w)))
         = poll_requests w ++ repeat (poll_request c) k
      /\ (n <= k <= S n)%nat).
  { intros g w. exists 0%nat, 0%nat. cbn [snd repeat].
    rewrite sleeps_time, poll_requests_time, !app_nil_r. repeat split; lia. }
  induction network as [|x network IH]; intros rc w.
  - rewrite poll_loop_nil. destruct (Qltb (now w - s) (inject_Z T)); apply Hnone.
  - rewrite poll_loop_cons. destruct (Qltb (now w - s) (inject_Z T)); [|apply Hnone].
    destruct (decide M rc (answer x)).
    + destruct (IH (rc + 1) (slept 1 (after_poll c x w)))
        as (n & k & Hs & Hr & Hnk).
      exists (S n), (S k). rewrite Hs, Hr, sleeps_after_poll, poll_requests_sleep,
        poll_requests_after_poll, <- !app_assoc. cbn [app repeat].
      repeat split; lia.
    + destruct (IH rc (slept 1 (after_poll c x w)))
        as (n & k & Hs & Hr & Hnk).
      exists (S n), (S k). rewrite Hs, Hr, sleeps_after_poll, poll_requests_sleep,
        poll_requests_after_poll, <- !app_assoc. cbn [app repeat].
      repeat split; lia.
    + exists 0%nat, 1%nat. cbn [snd repeat].
      rewrite sleeps_stop, poll_requests_after_poll, app_nil_r. repeat split; lia.
Qed.

Lemma poll_attempts_requests (w : world) :
  poll_attempts w = List.length (poll_requests w).
Proof.
  unfold poll_attempts, attempts, poll_requests, calls_to.
  induction (rev (trace w)) as [|e l IH]; [reflexivity|].
  cbn [filter]. destruct e; cbn [is_call_to]; try exact IH.
  destruct ((rq_method rq =? "GET")%string && (rq_path rq =? "/api/v1/chat/query")%string);
    [|exact IH].
  cbn [List.length flat_map request_of app]. rewrite IH. reflexivity.
Qed.

Lemma poll_requests_at_loop_start (a : args) (x : exchange) (w : world) :
  poll_requests (at_loop_start a x w) = poll_requests w.
Proof.
  unfold at_loop_start. rewrite poll_requests_time, poll_requests_sleep.
  unfold poll_requests, http_post, http_call. cbn [snd]. rewrite calls_to_event.
  cbn [is_call_to rq_method andb]. rewrite app_nil_r. destruct w. reflexivity.
Qed.

Lemma sleeps_at_loop_start (a : args) (x : exchange) (w : world) :
  sleeps (at_loop_start a x w) = sleeps w ++ [initial_delay a].
Proof.
  unfold at_loop_start. rewrite sleeps_time.
  unfold slept, http_post, http_call. cbn [snd now trace].
  rewrite !sleeps_event. cbn [sleep_of]. rewrite app_nil_r.
  destruct w. reflexivity.
Qed.

(** X4: every poll of a run queries the conversation the submission
    issued: each request to the poll endpoint is a GET of
    [/api/v1/chat/query] with the one parameter [conv_id] set to the issued
    id, and no body. *)
Theorem polls_query_the_issued_conversation (a : args) (x : exchange)
    (network : list exchange) (t0 : Q) (r c : json) :
  answer x = inr r ->
  issued_id r = Some c ->
  poll_requests (snd (run a (x :: network) t0))
  = repeat (poll_request c) (poll_attempts (snd (run a (x :: network) t0))).
Proof.
  intros Hx Hid. rewrite poll_attempts_requests. unfold run.
  destruct (delay_sign (initial_delay a)) as [Hd|Hd];
    [|rewrite (chat_completions_negative_delay a x network _ r c Hx Hid Hd);
      reflexivity].
  rewrite (chat_completions_loop a x network _ r c Hx Hid Hd).
  destruct (poll_loop_cadence (timeout a) (max_retries a) c
              (now (at_loop_start a x (mkWorld t0 []))) network 0
              (at_loop_start a x (mkWorld t0 []))) as (n & k & _ & Hr & _).
  rewrite Hr, poll_requests_at_loop_start. cbn [poll_requests calls_to trace rev
    filter flat_map app]. rewrite repeat_length. reflexivity.
Qed.

Lemma polls_query_the_issued_conversation_witness :
  poll_requests (snd (run (default_args "hello")
                        [submit_ok "c1"; poll_pending 0; poll_final 0 "X"] 0))
  = repeat (poll_request (JStr "c1"))
      (poll_attempts (snd (run (default_args "hello")
                             [submit_ok "c1"; poll_pending 0; poll_final 0 "X"] 0))).
Proof.
  exact (polls_query_the_issued_conversation (default_args "hello") (submit_ok "c1")
           [poll_pending 0; poll_final 0 "X"] 0
           (envelope (JDict [("conv_id", JStr "c1")])) (JStr "c1") eq_refl eq_refl).
Defined.

Lemma history_time (w : world) :
  history (snd (time_time w)) = history w ++ [ReadClock (now w)].
Proof. reflexivity. Qed.

Lemma history_after_poll (c : json) (x : exchange) (w : world) :
  history (after_poll c x w)
  = history w ++ [ReadClock (now w);
                  Called (poll_request c) (now w + took x)%Q (answer x)].
Proof.
  unfold history, after_poll, http_get, http_call, time_time.
  cbn [snd fst now trace rev]. rewrite <- app_assoc. reflexivity.
Qed.

Lemma history_slept (d : Q) (w : world) : history (slept d w) = history w ++ [Slept d].
Proof. reflexivity. Qed.

Lemma poll_loop_turns (T M : Z) (c : json) (s : Q) (network : list exchange) :
  forall (rc : Z) (w : world),
  exists new : list event,
    history (snd (poll_loop T M c s network rc w)) = history w ++ new
    /\ turns c new.
Proof.
  assert (Hnone : forall (g : gen) (w : world),
    exists new : list event,
      history (snd (g, snd (time_time w))) = history w ++ new /\ turns c new).
  { intros g w. exists [ReadClock (now w)]. split; [reflexivity|exact I]. }
  induction network as [|x network IH]; intros rc w.
  - rewrite poll_loop_nil. destruct (Qltb (now w - s) (inject_Z T)); apply Hnone.
  - rewrite poll_loop_cons. destruct (Qltb (now w - s) (inject_Z T)); [|apply Hnone].
    destruct (decide M rc (answer x)).
    + destruct (IH (rc + 1) (slept 1 (after_poll c x w))) as (new & Hh & Ht).
      exists ([ReadClock (now w);
               Called (poll_request c) (now w + took x)%Q (answer x); Slept 1] ++ new).
      rewrite Hh, history_slept, history_after_poll, <- !app_assoc.
      split; [reflexivity|]. cbn. repeat split. exact Ht.
    + destruct (IH rc (slept 1 (after_poll c x w))) as (new & Hh & Ht).
      exists ([ReadClock (now w);
               Called (poll_request c) (now w + took x)%Q (answer x); Slept 1] ++ new).
      rewrite Hh, history_slept, history_after_poll, <- !app_assoc.
      split; [reflexivity|]. cbn. repeat split. exact Ht.
    + exists [ReadClock (now w); Called (poll_request c) (now w + took x)%Q (answer x)].
      cbn [snd]. rewrite history_after_poll. split; [reflexivity|].
      cbn. repeat split.
Qed.

(** X5: the loop keeps a fixed cadence.  After the submission, the initial
    delay and the reading of the start time, the run proceeds in turns: a
    turn reads the clock, polls the issued conversation and sleeps exactly
    one second before the next turn; the last turn polls without sleeping
    after it, or only reads the clock.  So every later sleep lasts one
    second and directly follows a poll, and the polls number as many as
    these sleeps, or one more. *)
Theorem one_second_between_polls (a : args) (x : exchange)
    (network : list exchange) (t0 : Q) (r c : json) :
  answer x = inr r ->
  issued_id r = Some c ->
  (0 <= initial_delay a)%Q ->
  exists (tail : list event) (n : nat),
    history (snd (run a (x :: network) t0))
    = submission a x (mkWorld t0 [])
      :: Slept (initial_delay a)
      :: ReadClock (t0 + took x + initial_delay a)%Q :: tail
    /\ turns c tail
    /\ sleeps (snd (run a (x :: network) t0)) = initial_delay a :: repeat 1%Q n
    /\ (n <= poll_attempts (snd (run a (x :: network) t0)) <= S n)%nat.
Proof.
  intros Hx Hid Hd. rewrite poll_attempts_requests. unfold run.
  rewrite (chat_completions_loop a x network _ r c Hx Hid Hd).
  destruct (poll_loop_cadence (timeout a) (max_retries a) c
              (now (at_loop_start a x (mkWorld t0 []))) network 0
              (at_loop_start a x (mkWorld t0 []))) as (n & k & Hs & Hr & Hnk).
  destruct (poll_loop_turns (timeout a) (max_retries a) c
              (now (at_loop_start a x (mkWorld t0 []))) network 0
              (at_loop_start a x (mkWorld t0 []))) as (tail & Hh & Ht).
  exists tail, n. rewrite Hh, Hs, Hr, sleeps_at_loop_start, poll_requests_at_loop_start.
  cbn [poll_requests calls_to sleeps history trace rev filter flat_map app].
  rewrite repeat_length.
  split; [reflexivity|]. split; [exact Ht|]. split; [reflexivity|exact Hnk].
Qed.

Lemma one_second_between_polls_witness :
  exists (tail : list event) (n : nat),
    history (snd (run (default_args "hello")
                    [submit_ok "c1"; poll_pending 0; poll_final 0 "X"] 0))
    = submission (default_args "hello") (submit_ok "c1") (mkWorld 0 [])
      :: Slept (initial_delay (default_args "hello"))
      :: ReadClock (0 + took (submit_ok "c1") + initial_delay (default_args "hello"))%Q
      :: tail
    /\ turns (JStr "c1") tail
    /\ sleeps (snd (run (default_args "hello")
                      [submit_ok "c1"; poll_pending 0; poll_final 0 "X"] 0))
       = initial_delay (default_args "hello") :: repeat 1%Q n
    /\ (n <= poll_attempts (snd (run (default_args "hello")
                   [submit_ok "c1"; poll_pending 0; poll_final 0 "X"] 0)) <= S n)%nat.
Proof.
  refine (one_second_between_polls (default_args "hello") (submit_ok "c1")
            [poll_pending 0; poll_final 0 "X"] 0
            (envelope (JDict [("conv_id", JStr "c1")])) (JStr "c1") eq_refl eq_refl _).
  vm_compute. discriminate.
Defined.

(** *** What can be raised, and when the timeout is *)

Lemma make_request_raises (json_loads : string -> Http.parsing)
    (status_error_str : Http.Response -> string) (w : Http.wire) (e : exn) :
  Http._make_request json_loads status_error_str w = inl e ->
  (cls e = APIError
   /\ status_code e = match w with
                      | Http.Responded r =>
                          if Http.is_success r then None else Some (Http.resp_status r)
                      | Http.RequestError _ => None
                      end)
  \/ (cls e = UnicodeDecodeError
      /\ exists r reason,
           w = Http.Responded r /\ Http.is_success r = true
           /\ json_loads (Http.resp_content r) = Http.NotUnicode reason).
Proof.
  destruct w as [descr|r]; cbn [Http._make_request].
  - intro H. injection H as <-. left. split; reflexivity.
  - destruct (Http.is_success r) eqn:Hs.
    + destruct (Http.resp_content r =? EmptyString)%string; [discriminate|].
      destruct (json_loads (Http.resp_content r)) as [v| |reason] eqn:Hj;
        [discriminate| |].
      * intro H. injection H as <-. left. split; reflexivity.
      * intro H. injection H as <-. right. split; [reflexivity|].
        exists r, reason. repeat split; assumption.
    + intro H. injection H as <-. left. split; reflexivity.
Qed.



Lemma decide_stop_raise (M rc : Z) (r : result json) (e : exn) :
  decide M rc r = Stop (Raise e) ->
  r = inl e \/ cls e = APIError \/ cls e = AttributeError.
Proof.
  intro D. apply decide_stop_shape in D.
  destruct D as [H|[(ch & H & _)|[(H & _)|(e' & H & Hc)]]]; try discriminate.
  - left. exact H.
  - injection H as <-. right. exact Hc.
Qed.

Lemma poll_loop_raise (T M : Z) (c : json) (s : Q) (network : list exchange) (e : exn) :
  forall (rc : Z) (w : world),
  fst (poll_loop T M c s network rc w) = Raise e ->
  (exists x, In x network /\ answer x = inl e)
  \/ cls e = APIError \/ cls e = AttributeError
  \/ (e = timed_out T
      /\ exists t tr, trace (snd (poll_loop T M c s network rc w)) = ReadClock t :: tr
                      /\ (inject_Z T <= t - s)%Q).
Proof.
  assert (Hlate : forall w : world,
    Qltb (now w - s) (inject_Z T) = false ->
    fst (Raise (timed_out T), snd (time_time w)) = Raise e ->
    e = timed_out T
    /\ exists t tr, trace (snd (Raise (timed_out T), snd (time_time w)))
                    = ReadClock t :: tr /\ (inject_Z T <= t - s)%Q).
  { intros w Hq H. cbn [fst] in H. injection H as <-. split; [reflexivity|].
    exists (now w), (trace w). split; [reflexivity|]. apply Qltb_ge. exact Hq. }
  induction network as [|x network IH]; intros rc w.
  - rewrite poll_loop_nil. destruct (Qltb (now w - s) (inject_Z T)) eqn:Hq.
    + discriminate.
    + intro H. right. right. right. exact (Hlate w Hq H).
  - rewrite poll_loop_cons. destruct (Qltb (now w - s) (inject_Z T)) eqn:Hq;
      [|intro H; right; right; right; exact (Hlate w Hq H)].
    destruct (decide M rc (answer x)) eqn:D.
    + intro H. destruct (IH _ _ H) as [(y & Hy & Hay)|Hr];
        [left; exists y; split; [right; exact Hy|exact Hay]|right; exact Hr].
    + intro H. destruct (IH _ _ H) as [(y & Hy & Hay)|Hr];
        [left; exists y; split; [right; exact Hy|exact Hay]|right; exact Hr].
    + cbn [fst]. intros ->. apply decide_stop_raise in D.
      destruct D as [Hx|[Hc|Hc]].
      * left. exists x. split; [left; reflexivity|exact Hx].
      * right. left. exact Hc.
      * right. right. left. exact Hc.
Qed.

Lemma chat_completions_raise (a : args) (network : list exchange) (w : world)
    (e : exn) :
  fst (chat_completions a network w) = Raise e ->
  (exists x, In x network /\ answer x = inl e)
  \/ cls e = APIError \/ cls e = AttributeError
  \/ (e = timed_out (timeout a)
      /\ exists x rest r c t tr,
           network = x :: rest /\ answer x = inr r /\ issued_id r = Some c
           /\ (0 <= initial_delay a)%Q
           /\ trace (snd (chat_completions a network w)) = ReadClock t :: tr
           /\ (inject_Z (timeout a) <= t - (now w + took x + initial_delay a))%Q)
  \/ (e = negative_sleep /\ (initial_delay a < 0)%Q).
Proof.
  destruct network as [|x rest]; [discriminate|].
  destruct (answer x) as [ex|r] eqn:Hx.
  - destruct (chat_completions_no_loop a x rest w) as [_ (e' & He & Hc)].
    { intros r Hr. rewrite Hx in Hr. discriminate. }
    rewrite He. intro H. injection H as <-.
    destruct Hc as [Hc|Hc]; [|right; destruct Hc; [left|right; left]; assumption].
    left. exists x. split; [left; reflexivity|exact Hc].
  - destruct (issued_id r) as [c|] eqn:Hid.
    + destruct (delay_sign (initial_delay a)) as [Hd|Hd];
        [|rewrite (chat_completions_negative_delay a x rest w r c Hx Hid Hd);
          intro H; injection H as <-; right; right; right; right;
          split; [reflexivity|exact Hd]].
      rewrite (chat_completions_loop a x rest w r c Hx Hid Hd). intro H.
      destruct (poll_loop_raise _ _ _ _ _ _ _ _ H)
        as [(y & Hy & Hay)|[Hc|[Hc|(He & t & tr & Ht & Hle)]]].
      * left. exists y. split; [right; exact Hy|exact Hay].
      * right. left. exact Hc.
      * right. right. left. exact Hc.
      * right. right. right. left. split; [exact He|].
        exists x, rest, r, c, t, tr. repeat split; assumption.
    + destruct (chat_completions_no_loop a x rest w) as [_ (e' & He & Hc)].
      { intros r' Hr. rewrite Hx in Hr. injection Hr as <-. exact Hid. }
      rewrite He. intro H. injection H as <-.
      destruct Hc as [Hc|Hc]; [rewrite Hx in Hc; discriminate|].
      right. destruct Hc; [left|right; left]; assumption.
Qed.

Lemma over_transport_raises (json_loads : string -> Http.parsing)
    (status_error_str : Http.Response -> string) (calls : list (Q * Http.wire))
    (x : exchange) (e : exn) :
  In x (over_transport json_loads status_error_str calls) ->
  answer x = inl e ->
  cls e = APIError
  \/ (cls e = UnicodeDecodeError
      /\ exists call r reason,
           In call calls /\ snd call = Http.Responded r /\ Http.is_success r = true
           /\ json_loads (Http.resp_content r) = Http.NotUnicode reason).
Proof.
  unfold over_transport. intros Hin Hx. apply in_map_iff in Hin.
  destruct Hin as (cw & <- & Hcw). cbn [answer] in Hx.
  destruct (make_request_raises _ _ _ _ Hx) as [[Hc _]|[Hc (r & reason & Hw & Hs & Hj)]].
  - left. exact Hc.
  - right. split; [exact Hc|]. exists cw, r, reason. repeat split; assumption.
Qed.



(** X8: over the transport, a [TimeoutError] is never raised early: when
    [chat_completions] raises one, it is the timed-out error naming the
    configured timeout, and the last thing the run did was to read the
    clock and find at least [timeout] seconds elapsed since the reading
    taken after the initial delay. *)
Theorem timeout_error_only_after_timeout (json_loads : string -> Http.parsing)
    (status_error_str : Http.Response -> string) (calls : list (Q * Http.wire))
    (a : args) (t0 : Q) (e : exn) :
  fst (run a (over_transport json_loads status_error_str calls) t0) = Raise e ->
  cls e = TimeoutError ->
  e = timed_out (timeout a)
  /\ exists s t tr,
       start_time_of (snd (run a (over_transport json_loads status_error_str calls) t0))
       = Some s
       /\ trace (snd (run a (over_transport json_loads status_error_str calls) t0))
          = ReadClock t :: tr
       /\ (inject_Z (timeout a) <= t - s)%Q.
Proof.
  intros H Hc. unfold run in *.
  destruct (chat_completions_raise _ _ _ _ H)
    as [(x & Hin & Hx)|[Ha|[Ha|[(He & x & rest & r & c & t & tr
                                  & Hn & Hx & Hid & Hd & Ht & Hle)|(-> & _)]]]].
  - destruct (over_transport_raises _ _ _ _ _ Hin Hx) as [Ha|[Ha _]];
      rewrite Ha in Hc; discriminate.
  - rewrite Ha in Hc. discriminate.
  - rewrite Ha in Hc. discriminate.
  - split; [exact He|].
    exists (t0 + took x + initial_delay a)%Q, t, tr.
    split; [|split; [exact Ht|exact Hle]].
    rewrite Hn. exact (start_time_of_run a x rest t0 r c Hx Hid Hd).
  - discriminate.
Qed.

Lemma timeout_error_only_after_timeout_witness :
  timed_out 1 = timed_out (timeout hurried)
  /\ exists s t tr,
       start_time_of (snd (run hurried
          (over_transport (fun _ => Http.Loaded (envelope (JDict [("conv_id", JStr "c1")])))
             (fun _ => EmptyString)
             [(0%Q, Http.Responded (Http.mkResponse 200 "{...}" "{...}"));
              (3%Q, Http.Responded (Http.mkResponse 200 "{...}" "{...}"))]) 0)) = Some s
       /\ trace (snd (run hurried
          (over_transport (fun _ => Http.Loaded (envelope (JDict [("conv_id", JStr "c1")])))
             (fun _ => EmptyString)
             [(0%Q, Http.Responded (Http.mkResponse 200 "{...}" "{...}"));
              (3%Q, Http.Responded (Http.mkResponse 200 "{...}" "{...}"))]) 0))
          = ReadClock t :: tr
       /\ (inject_Z (timeout hurried) <= t - s)%Q.
Proof.
  apply (timeout_error_only_after_timeout
           (fun _ => Http.Loaded (envelope (JDict [("conv_id", JStr "c1")])))
           (fun _ => EmptyString)
           [(0%Q, Http.Responded (Http.mkResponse 200 "{...}" "{...}"));
            (3%Q, Http.Responded (Http.mkResponse 200 "{...}" "{...}"))]
           hurried 0 (timed_out 1)).
  - vm_compute. reflexivity.
  - reflexivity.
Defined.

(** *** The submission *)

(** X9: a successful submission that issues no conversation id, because
    [conv_id] is missing, null or empty or because there is no [data] at
    all, is a protocol violation: [chat_completions] raises the [APIError]
    [No conv_id in response] carrying the response, and neither sleeps nor
    polls. *)
Theorem missing_conversation_id (a : args) (x : exchange) (network : list exchange)
    (t0 : Q) (d dd : list (string * json)) :
  answer x = inr (JDict d) ->
  truthy (field_of d "success" JNull) = true ->
  field_of d "data" (JDict []) = JDict dd ->
  truthy (field_of dd "conv_id" JNull) = false ->
  fst (run a (x :: network) t0) = Raise (no_conv_id (JDict d))
  /\ cls (no_conv_id (JDict d)) = APIError
  /\ response (no_conv_id (JDict d)) = JDict d
  /\ history (snd (run a (x :: network) t0)) = [submission a x (mkWorld t0 [])]
  /\ (lookup "data" d = None -> dd = []).
Proof.
  intros Hx Hs Hd Hc. split; [|split; [|split; [|split]]].
  - unfold run, chat_completions, http_post, http_call. rewrite Hx.
    cbn [snd fst]. rewrite get_dict, Hs. cbn [negb]. rewrite get_dict, Hd, get_dict, Hc.
    reflexivity.
  - reflexivity.
  - unfold no_conv_id, mkAPIError, response_or_empty. cbn [response].
    destruct d; [discriminate|reflexivity].
  - unfold run, chat_completions, http_post, http_call, history, submission.
    rewrite Hx. cbn [snd fst]. rewrite get_dict, Hs. cbn [negb].
    rewrite get_dict, Hd, get_dict, Hc. reflexivity.
  - intro Hn. unfold field_of in Hd. rewrite Hn in Hd. injection Hd as <-. reflexivity.
Qed.

Lemma missing_conversation_id_witness :
  fst (run (default_args "hello")
         [mkExchange 0 (inr (JDict [("success", JBool true)]))] 0)
  = Raise (no_conv_id (JDict [("success", JBool true)])).
Proof.
  exact (proj1 (missing_conversation_id (default_args "hello")
                  (mkExchange 0 (inr (JDict [("success", JBool true)]))) [] 0
                  [("success", JBool true)] [] eq_refl eq_refl eq_refl eq_refl)).
Defined.

(** *** What [chat_async] returns *)

Lemma append_empty_r (s : string) : (s ++ EmptyString)%string = s.
Proof. induction s as [|a s IH]; cbn; [|rewrite IH]; reflexivity. Qed.

(** X10: what [chat_async] makes of a completed chat is decided by the
    answer of the final reply alone: a string answer is returned as it is
    (the empty string included), an empty or absent answer gives the empty
    string, and a non-empty answer that is not a string makes the join, and
    so the call, raise [TypeError]. *)
Theorem chat_async_result (text : string) (conv app model : option string) (T : Z)
    (network : list exchange) (t0 : Q) (v ans : json) :
  In (inr v) (polled (snd (chat_async text conv app model T network (mkWorld t0 [])))) ->
  final_answer v = Some ans ->
  fst (chat_async text conv app model T network (mkWorld t0 [])) = joined ans.
Proof.
  intros Hin Hf. rewrite chat_async_world in Hin.
  destruct (chat_completions_replies (async_args text conv app model T) network
              (mkWorld t0 [])) as (new & Hnew & _ & Hfin).
  rewrite Hnew in Hin. cbn [polled calls_to trace rev filter flat_map List.app] in Hin.
  specialize (Hfin v ans Hin Hf). unfold chat_async.
  destruct (chat_completions _ network (mkWorld t0 [])) as [g w']. cbn [fst] in Hfin.
  rewrite Hfin. unfold joined.
  destruct ans; cbn [truthy]; try reflexivity.
  - destruct b; reflexivity.
  - destruct (negb (z =? 0)); reflexivity.
  - destruct (negb (Qeq_bool q 0)); reflexivity.
  - destruct (negb (s =? EmptyString)%string) eqn:E; cbn.
    + rewrite append_empty_r. reflexivity.
    + apply negb_false_iff, String.eqb_eq in E. subst. reflexivity.
  - destruct l; reflexivity.
  - destruct d; reflexivity.
Qed.

Lemma chat_async_result_witness :
  fst (chat_async "hello" None None None 300
         [submit_ok "c1";
          mkExchange 0 (inr (envelope (JDict [("is_final", JBool true);
                                              ("user_answer", JInt 42)])))]
         (mkWorld 0 []))
  = joined (JInt 42).
Proof.
  apply (chat_async_result "hello" None None None 300
           [submit_ok "c1";
            mkExchange 0 (inr (envelope (JDict [("is_final", JBool true);
                                                ("user_answer", JInt 42)])))] 0
           (envelope (JDict [("is_final", JBool true); ("user_answer", JInt 42)]))
           (JInt 42)).
  - vm_compute. left. reflexivity.
  - reflexivity.
Defined.

(** *** The submitted payload *)


(** *** The rest of the transport *)

Lemma len_slice_to (n : nat) (s : string) : (len (slice_to n s) <= n)%nat.
Proof.
  revert n. induction s as [|a s IH]; intro n; cbn [slice_to len]; [lia|].
  destruct (is_continuation a) eqn:E; cbn [len]; rewrite ?E; [apply IH|].
  destruct n as [|m]; cbn [len]; [lia|]. rewrite E. specialize (IH m). lia.
Qed.

Lemma slice_to_prefix (n : nat) (s : string) : prefix (slice_to n s) s = true.
Proof.
  revert n. induction s as [|a s IH]; intro n; cbn [slice_to]; [reflexivity|].
  destruct (is_continuation a).
  - cbn [prefix]. destruct (ascii_dec a a) as [_|Hn]; [apply IH|contradiction].
  - destruct n as [|m]; [reflexivity|].
    cbn [prefix]. destruct (ascii_dec a a) as [_|Hn]; [apply IH|contradiction].
Qed.

Lemma slice_to_all (n : nat) (s : string) : (len s <= n)%nat -> slice_to n s = s.
Proof.
  revert n. induction s as [|a s IH]; intros n H; cbn [slice_to len] in *;
    [reflexivity|].
  destruct (is_continuation a).
  - rewrite IH by exact H. reflexivity.
  - destruct n as [|m]; [lia|]. rewrite IH by lia. reflexivity.
Qed.

Lemma len_slice_to_full (n : nat) (s : string) :
  (n <= len s)%nat -> len (slice_to n s) = n.
Proof.
  revert n. induction s as [|a s IH]; intros n H; cbn [slice_to len] in *.
  - lia.
  - destruct (is_continuation a) eqn:E; cbn [len]; rewrite ?E; [apply IH; exact H|].
    destruct n as [|m]; cbn [len]; [reflexivity|]. rewrite E, IH by lia. reflexivity.
Qed.

Lemma len_append (s t : string) : len (s ++ t) = (len s + len t)%nat.
Proof.
  induction s as [|a s IH]; cbn [append len]; [reflexivity|].
  destruct (is_continuation a); rewrite IH; reflexivity.
Qed.

(** X12: the details of the invalid-JSON error quote at most 200
    characters of the response: after [Response content: ] comes the text
    of the response cut to its first 200 characters, counted as characters
    and not as bytes, and unchanged when it has no more than 200; or the
    word [empty] when the text of the response is empty. *)
Theorem decode_failure_excerpt_bounded (json_loads : string -> Http.parsing)
    (status_error_str : Http.Response -> string) (r : Http.Response) :
  Http.is_success r = true ->
  Http.resp_content r <> EmptyString ->
  json_loads (Http.resp_content r) = Http.NotJSON ->
  exists e,
    Http._make_request json_loads status_error_str (Http.Responded r) = inl e
    /\ details e = Some ("Response content: " ++ Http.content_excerpt r)%string
    /\ (len (Http.content_excerpt r) <= 200)%nat
    /\ (Http.resp_text r = EmptyString -> Http.content_excerpt r = "empty"%string)
    /\ (Http.resp_text r <> EmptyString ->
        Http.content_excerpt r = slice_to 200 (Http.resp_text r)
        /\ prefix (Http.content_excerpt r) (Http.resp_text r) = true
        /\ len (Http.content_excerpt r) = Nat.min 200 (len (Http.resp_text r))
        /\ ((len (Http.resp_text r) <= 200)%nat ->
            Http.content_excerpt r = Http.resp_text r)).
Proof.
  intros Hs Ht Hn. eexists. split.
  - cbn [Http._make_request]. rewrite Hs.
    apply String.eqb_neq in Ht. rewrite Ht, Hn. reflexivity.
  - split; [reflexivity|]. unfold Http.content_excerpt.
    destruct (Http.resp_text r =? EmptyString)%string eqn:E.
    + apply String.eqb_eq in E.
      split; [cbn; lia|]. split; [reflexivity|]. intro H. contradiction.
    + apply String.eqb_neq in E.
      split; [apply len_slice_to|]. split; [intro H; contradiction|].
      intros _. split; [reflexivity|]. split; [apply slice_to_prefix|]. split.
      * destruct (Nat.le_gt_cases 200 (len (Http.resp_text r))) as [H|H].
        -- rewrite len_slice_to_full by exact H. lia.
        -- rewrite slice_to_all by lia. lia.
      * apply slice_to_all.
Qed.

Lemma decode_failure_excerpt_bounded_witness :
  exists e,
    Http._make_request (fun _ => Http.NotJSON) (fun _ => EmptyString)
      (Http.Responded (Http.mkResponse 200 "<html>" "<html>")) = inl e
    /\ details e = Some "Response content: <html>"%string.
Proof.
  destruct (decode_failure_excerpt_bounded (fun _ => Http.NotJSON)
              (fun _ => EmptyString) (Http.mkResponse 200 "<html>" "<html>")
              eq_refl ltac:(discriminate) eq_refl) as (e & He & Hd & _).
  exists e. split; [exact He|exact Hd].
Defined.

Lemma rstrip_spec (c : ascii) (s : string) :
  (exists n, s = (Client.rstrip c s ++ Client.copies n c)%string)
  /\ Client.last_char (Client.rstrip c s) <> Some c.
Proof.
  induction s as [|a s [[n Hs] Hl]]; [split; [exists 0%nat; reflexivity|discriminate]|].
  cbn [Client.rstrip]. destruct (Client.rstrip c s) as [|b t] eqn:Hr.
  - destruct (Ascii.eqb a c) eqn:E.
    + apply Ascii.eqb_eq in E. subst a. split; [|discriminate].
      exists (S n). change (String c s = String c (Client.copies n c)).
      f_equal. exact Hs.
    + split.
      * exists n. change (String a s = String a (Client.copies n c)).
        f_equal. exact Hs.
      * cbn. intro H. injection H as ->. rewrite Ascii.eqb_refl in E. discriminate.
  - split; [|exact Hl].
    exists n. change (String a s = String a (String b t ++ Client.copies n c)%string).
    f_equal. exact Hs.
Qed.

Lemma rstrip_fixed (c : ascii) (s : string) :
  Client.last_char s <> Some c -> Client.rstrip c s = s.
Proof.
  induction s as [|a s IH]; [reflexivity|]. intro Hl. cbn [Client.rstrip].
  destruct s as [|b t].
  - cbn. destruct (Ascii.eqb a c) eqn:E; [|reflexivity].
    apply Ascii.eqb_eq in E. subst. exfalso. apply Hl. reflexivity.
  - rewrite IH; [reflexivity|exact Hl].
Qed.

Lemma rstrip_trailing (c : ascii) (s : string) :
  Client.rstrip c (s ++ String c EmptyString) = Client.rstrip c s.
Proof.
  induction s as [|a s IH].
  - cbn. rewrite Ascii.eqb_refl. reflexivity.
  - cbn [append Client.rstrip]. rewrite IH. reflexivity.
Qed.

(** X13: the client stores the base URL without its trailing slashes: the
    stored URL does not end in a slash, it is the given URL with only
    slashes removed from its end, storing is idempotent, and a base URL
    given with one more trailing slash leads to the same request URLs. *)
Theorem base_url_loses_trailing_slashes (given : string) (T : Z) :
  Client.last_char (Client.base_url (Client.init given T)) <> Some Client.slash
  /\ (exists n, given = (Client.base_url (Client.init given T)
                         ++ Client.copies n Client.slash)%string)
  /\ Client.init (Client.base_url (Client.init given T)) T = Client.init given T
  /\ (forall path,
        Client.url (Client.init (given ++ "/") T) path
        = Client.url (Client.init given T) path).
Proof.
  unfold Client.init, Client.url. cbn [Client.base_url].
  destruct (rstrip_spec Client.slash given) as [Hn Hl].
  split; [exact Hl|]. split; [exact Hn|]. split.
  - rewrite (rstrip_fixed _ _ Hl). reflexivity.
  - intro path. change "/"%string with (String Client.slash EmptyString).
    rewrite rstrip_trailing. reflexivity.
Qed.

(** The invariant of the connection: the live connections are exactly the
    one held in [_client], if any. *)
Lemma client_invariant (given : string) (T : Z) (ops : list Client.op) :
  forall self,
  Client.live self = match Client._client self with Some h => [h] | None => [] end ->
  Client.live (fold_left Client.step ops self)
  = match Client._client (fold_left Client.step ops self) with
    | Some h => [h]
    | None => []
    end
  /\ Client.base_url (fold_left Client.step ops self) = Client.base_url self.
Proof.
  induction ops as [|o ops IH]; intros self Hinv; [split; [exact Hinv|reflexivity]|].
  cbn [fold_left].
  assert (Hstep : Client.live (Client.step self o)
                  = match Client._client (Client.step self o) with
                    | Some h => [h]
                    | None => []
                    end
                  /\ Client.base_url (Client.step self o) = Client.base_url self).
  { destruct o; cbn [Client.step]; unfold Client.client, Client.close;
      destruct (Client._client self) as [h|] eqn:E; cbn; rewrite ?E, ?Hinv;
        cbn; rewrite ?Nat.eqb_refl; split; reflexivity. }
  destruct Hstep as [Hl Hb]. destruct (IH _ Hl) as [Hl' Hb'].
  split; [exact Hl'|]. rewrite Hb'. exact Hb.
Qed.

(** X14: whatever requests and closes are made on a client, it holds at
    most one live connection, the one in [_client]; consecutive requests
    reuse it; [close] leaves none live and is idempotent; a [with] block
    always ends with none live; and the base URL never changes. *)
Theorem connection_lifecycle (given : string) (T : Z) (ops : list Client.op) :
  (List.length (Client.live (fold_left Client.step ops (Client.init given T))) <= 1)%nat
  /\ Client.live (Client.close (fold_left Client.step ops (Client.init given T))) = []
  /\ Client._client (Client.close (fold_left Client.step ops (Client.init given T)))
     = None
  /\ Client.close (Client.close (fold_left Client.step ops (Client.init given T)))
     = Client.close (fold_left Client.step ops (Client.init given T))
  /\ Client.live (Client.with_block (Client.init given T) ops) = []
  /\ Client.step (Client.step (fold_left Client.step ops (Client.init given T))
                    Client.Request) Client.Request
     = Client.step (fold_left Client.step ops (Client.init given T)) Client.Request
  /\ Client.base_url (fold_left Client.step ops (Client.init given T))
     = Client.base_url (Client.init given T).
Proof.
  destruct (client_invariant given T ops (Client.init given T) eq_refl) as [Hl Hb].
  set (st := fold_left Client.step ops (Client.init given T)) in *.
  unfold Client.with_block. fold st.
  assert (Hclose : Client.live (Client.close st) = []
                   /\ Client._client (Client.close st) = None).
  { unfold Client.close. destruct (Client._client st) as [h|] eqn:E; cbn.
    - rewrite Hl. cbn. rewrite Nat.eqb_refl. split; reflexivity.
    - rewrite E. split; [exact Hl|reflexivity]. }
  destruct Hclose as [Hcl Hcc].
  split; [rewrite Hl; destruct (Client._client st); cbn; lia|].
  split; [exact Hcl|]. split; [exact Hcc|].
  split; [unfold Client.close at 1; rewrite Hcc; reflexivity|].
  split; [exact Hcl|]. split; [|exact Hb].
  cbn [Client.step]. unfold Client.client.
  destruct (Client._client st) as [h|] eqn:E; cbn; rewrite ?E; reflexivity.
Qed.

(** *** The listings *)

Lemma comprehension_returns {A : Type} (f : json -> result A) (items : list json) :
  forall l, Listing.comprehension f items = inr l ->
  Forall2 (fun item a => f item = inr a) items l.
Proof.
  induction items as [|item items IH]; intros l; cbn [Listing.comprehension].
  - intro H. injection H as <-. constructor.
  - destruct (f item) as [e|a] eqn:Hf; cbn [bind]; [discriminate|].
    destruct (Listing.comprehension f items) as [e|l'] eqn:Hc; cbn [bind];
      [discriminate|].
    intro H. injection H as <-. constructor; [exact Hf|apply IH; reflexivity].
Qed.

Lemma comprehension_raises {A : Type} (f : json -> result A)
    (before : list json) (item : json) (after : list json) (e : exn) :
  Forall (fun i => exists a, f i = inr a) before ->
  f item = inl e ->
  Listing.comprehension f (before ++ item :: after) = inl e.
Proof.
  intros Hb Hf. induction Hb as [|i before [a Ha] _ IH]; cbn [List.app Listing.comprehension].
  - rewrite Hf. reflexivity.
  - rewrite Ha. cbn [bind]. rewrite IH. reflexivity.
Qed.

(** X15: [list_conversations] returns one model per item of the feed, in
    the order of the feed, with no filtering: when it returns, the result is
    as long as the feed and its n-th model is built from the n-th item; and
    the first item that fails validation makes the whole call raise that
    failure. *)
Theorem list_conversations_one_per_item (ConversationResponse : Type)
    (new_ConversationResponse : json -> result ConversationResponse)
    (user : option string) (page page_size : Z) (x : exchange) (w : world)
    (d : list (string * json)) (items : list json) :
  answer x = inr (JDict d) ->
  truthy (field_of d "success" JNull) = true ->
  lookup "data" d = Some (JList items) ->
  (forall l,
     fst (Listing.list_conversations ConversationResponse new_ConversationResponse
            user page page_size x w) = inr l ->
     Forall2 (fun item model => new_ConversationResponse item = inr model) items l
     /\ List.length l = List.length items)
  /\ (forall before item after e,
        items = before ++ item :: after ->
        Forall (fun i => exists model, new_ConversationResponse i = inr model) before ->
        new_ConversationResponse item = inl e ->
        fst (Listing.list_conversations ConversationResponse new_ConversationResponse
               user page page_size x w) = inl e).
Proof.
  intros Hx Hs Hd.
  assert (Hmain : fst (Listing.list_conversations ConversationResponse
                         new_ConversationResponse user page page_size x w)
                  = Listing.comprehension new_ConversationResponse items).
  { unfold Listing.list_conversations, http_get, http_call. cbn [fst]. rewrite Hx.
    cbn [bind]. rewrite get_dict. cbn [bind]. rewrite Hs.
    rewrite get_dict. cbn [bind]. unfold field_of, getitem. rewrite Hd.
    destruct items; reflexivity. }
  rewrite Hmain. split.
  - intros l Hl. pose proof (comprehension_returns _ _ _ Hl) as H2.
    split; [exact H2|]. symmetry. exact (Forall2_length H2).
  - intros before item after e -> Hb He. apply comprehension_raises; assumption.
Qed.

Lemma list_conversations_one_per_item_witness :
  Forall2 (fun item model => @inr exn json item = inr model)
    [model_entry "a" "h"; model_entry "a" "h"]
    [model_entry "a" "h"; model_entry "a" "h"]
  /\ List.length [model_entry "a" "h"; model_entry "a" "h"] = 2%nat.
Proof.
  exact (proj1 (list_conversations_one_per_item json (fun item => inr item) None 1 20
                  (feed_of [model_entry "a" "h"; model_entry "a" "h"]) (mkWorld 0 [])
                  [("success", JBool true);
                   ("data", JList [model_entry "a" "h"; model_entry "a" "h"])]
                  [model_entry "a" "h"; model_entry "a" "h"]
                  eq_refl eq_refl eq_refl)
               [model_entry "a" "h"; model_entry "a" "h"] eq_refl).
Defined.

Lemma eqb_refl_named (v : json) :
  truthy v = true -> hashable v = true -> eqb v v = true.
Proof.
  destruct v; cbn; try discriminate; intros _ _.
  - apply Qeq_bool_iff. reflexivity.
  - apply Qeq_bool_iff. reflexivity.
  - apply Qeq_bool_iff. reflexivity.
  - apply String.eqb_refl.
Qed.

Lemma subsequence_refl {A : Type} (l : list A) : subsequence l l.
Proof. induction l; constructor; assumption. Qed.

Lemma subsequence_filter {A : Type} (f : A -> bool) (l : list A) :
  subsequence (filter f l) l.
Proof.
  induction l as [|x l IH]; cbn [filter]; [constructor|].
  destruct (f x); constructor; exact IH.
Qed.

Lemma subsequence_trans {A : Type} (l3 : list A) :
  forall l1 l2, subsequence l1 l2 -> subsequence l2 l3 -> subsequence l1 l3.
Proof.
  induction l3 as [|z l3 IH]; intros l1 l2 H12 H23.
  - inversion H23; subst. inversion H12; subst. constructor.
  - inversion H23; subst.
    + inversion H12; subst. constructor.
    + inversion H12; subst.
      * constructor.
      * constructor. eapply IH; eassumption.
      * apply subsequence_skip. eapply IH; eassumption.
    + apply subsequence_skip. eapply IH; eassumption.
Qed.

Lemma first_by_name_subsequence (l : list json) : subsequence (first_by_name l) l.
Proof.
  induction l as [|x l IH]; cbn [first_by_name]; constructor.
  eapply subsequence_trans; [apply subsequence_filter|exact IH].
Qed.

Lemma first_by_name_in (l : list json) (y : json) :
  In y (first_by_name l) -> In y l.
Proof.
  induction l as [|x l IH]; cbn [first_by_name]; [trivial|].
  intros [H|H]; [left; exact H|right]. apply filter_In in H. apply IH, H.
Qed.

Lemma first_by_name_distinct (l : list json) :
  ForallOrdPairs (fun kept later => eqb (name_of later) (name_of kept) = false)
    (first_by_name l).
Proof.
  induction l as [|x l IH]; cbn [first_by_name]; constructor.
  - apply Forall_forall. intros y Hy. apply filter_In in Hy.
    destruct Hy as [_ Hy]. apply negb_true_iff. exact Hy.
  - clear -IH. induction IH as [|a l' Ha _ IH']; cbn [filter]; [constructor|].
    destruct (negb (eqb (name_of a) (name_of x))); [|exact IH'].
    constructor; [|exact IH'].
    apply Forall_forall. intros y Hy. apply filter_In in Hy.
    rewrite Forall_forall in Ha. apply Ha, Hy.
Qed.

Lemma first_by_name_covers (l : list json) (y : json) :
  In y l -> eqb (name_of y) (name_of y) = true ->
  exists kept, In kept (first_by_name l)
               /\ eqb (name_of y) (name_of kept) = true.
Proof.
  induction l as [|x l IH]; intros Hin Hr; [destruct Hin|].
  cbn [first_by_name]. destruct Hin as [->|Hin].
  - exists y. split; [left; reflexivity|exact Hr].
  - destruct (IH Hin Hr) as (k & Hk & Hyk).
    destruct (eqb (name_of k) (name_of x)) eqn:E.
    + exists x. split; [left; reflexivity|]. exact (eqb_trans _ _ _ Hyk E).
    + exists k. split; [|exact Hyk]. right. apply filter_In.
      split; [exact Hk|]. rewrite E. reflexivity.
Qed.

(** X16: on a successful feed whose items are dicts with hashable names,
    [list_models] builds its models from a selection of the feed that keeps
    the feed's order, contains only healthy entries that carry a name, never
    contains two entries with the same name, and has, for every healthy
    named entry of the feed, an entry of that name; so an unhealthy entry
    never hides a healthy one of the same name. *)
Theorem list_models_selection (ModelInfo : Type)
    (new_ModelInfo : json -> result ModelInfo) (x : exchange) (w : world)
    (d : list (string * json)) (items : list json) :
  answer x = inr (JDict d) ->
  truthy (field_of d "success" JNull) = true ->
  lookup "data" d = Some (JList items) ->
  walkable items = true ->
  exists selection,
    fst (Listing.list_models ModelInfo new_ModelInfo x w)
    = Listing.comprehension new_ModelInfo selection
    /\ subsequence selection items
    /\ Forall (fun item => eligible item = true) selection
    /\ ForallOrdPairs (fun kept later => eqb (name_of later) (name_of kept) = false)
         selection
    /\ (forall item, In item items -> eligible item = true ->
        exists kept, In kept selection
                     /\ eqb (name_of item) (name_of kept) = true).
Proof.
  intros Hx Hs Hd Hw. exists (healthy_named_first items).
  split; [|split; [|split; [|split]]].
  - unfold Listing.list_models, http_get, http_call. cbn [fst]. rewrite Hx.
    cbn [bind]. rewrite get_dict. cbn [bind]. rewrite Hs.
    rewrite get_dict. cbn [bind]. unfold field_of, getitem. rewrite Hd.
    destruct items as [|item items]; [reflexivity|].
    cbn [truthy bind iter].
    rewrite (keep_healthy_refines ModelInfo new_ModelInfo _ [] [] Hw).
    cbn [existsb negb]. rewrite filter_all. cbn [List.app]. apply bind_ret.
  - unfold healthy_named_first.
    eapply subsequence_trans; [apply first_by_name_subsequence|apply subsequence_filter].
  - apply Forall_forall. intros y Hy. unfold healthy_named_first in Hy.
    apply first_by_name_in, filter_In in Hy. exact (proj2 Hy).
  - apply first_by_name_distinct.
  - intros item Hin He. unfold healthy_named_first.
    apply first_by_name_covers.
    + apply filter_In. split; [exact Hin|exact He].
    + unfold walkable in Hw. rewrite forallb_forall in Hw.
      specialize (Hw item Hin). apply andb_true_iff in Hw.
      unfold eligible in He. apply andb_true_iff in He.
      apply eqb_refl_named; [exact (proj2 He)|exact (proj2 Hw)].
Qed.

Lemma list_models_selection_witness :
  exists selection,
    fst (Listing.list_models json (fun item => inr item)
           (feed_of [model_entry "gpt" "a"; model_entry "gpt" "b"]) (mkWorld 0 []))
    = Listing.comprehension (fun item => inr item) selection
    /\ subsequence selection [model_entry "gpt" "a"; model_entry "gpt" "b"]
    /\ Forall (fun item => eligible item = true) selection
    /\ ForallOrdPairs (fun kept later => eqb (name_of later) (name_of kept) = false)
         selection
    /\ (forall item, In item [model_entry "gpt" "a"; model_entry "gpt" "b"] ->
        eligible item = true ->
        exists kept, In kept selection
                     /\ eqb (name_of item) (name_of kept) = true).
Proof.
  exact (list_models_selection json (fun item => inr item)
           (feed_of [model_entry "gpt" "a"; model_entry "gpt" "b"]) (mkWorld 0 [])
           [("success", JBool true);
            ("data", JList [model_entry "gpt" "a"; model_entry "gpt" "b"])]
           [model_entry "gpt" "a"; model_entry "gpt" "b"]
           eq_refl eq_refl eq_refl eq_refl).
Defined.

(** *** The text of an error *)

Lemma string_length_append (s t : string) :
  String.length (s ++ t) = (String.length s + String.length t)%nat.
Proof. induction s as [|a s IH]; cbn; [|rewrite IH]; reflexivity. Qed.

Lemma string_append_assoc (s t u : string) :
  ((s ++ t) ++ u)%string = (s ++ t ++ u)%string.
Proof. induction s as [|a s IH]; cbn; [|rewrite IH]; reflexivity. Qed.

Lemma error_text_closed (e : exn) :
  Errors.__str__ e
  = (message e ++ Errors.line "Details: " (details e)
     ++ Errors.line "Suggestion: " (suggestion e))%string.
Proof.
  unfold Errors.__str__, Errors.parts, Errors.line, Errors.given.
  destruct (details e) as [d|]; [destruct (d =? EmptyString)%string|];
    (destruct (suggestion e) as [s|]; [destruct (s =? EmptyString)%string|]);
    cbn; rewrite ?append_empty_r; reflexivity.
Qed.

(** X17: the text of an error is its message, followed by a line
    [Details: ...] when details are given and not empty, followed by a line
    [Suggestion: ...] when a suggestion is given and not empty, in this
    order; an empty string counts as absent, and the text is the bare message
    exactly when neither is given. *)
Theorem error_text (e : exn) :
  Errors.__str__ e
  = (message e ++ Errors.line "Details: " (details e)
     ++ Errors.line "Suggestion: " (suggestion e))%string
  /\ prefix (message e) (Errors.__str__ e) = true
  /\ Errors.line "Details: " (Some EmptyString) = Errors.line "Details: " None
  /\ (Errors.__str__ e = message e
      <-> Errors.given (details e) = [] /\ Errors.given (suggestion e) = []).
Proof.
  split; [apply error_text_closed|]. split; [|split; [reflexivity|]].
  - rewrite error_text_closed. generalize (Errors.line "Details: " (details e)
      ++ Errors.line "Suggestion: " (suggestion e))%string.
    intro t. induction (message e) as [|a m IH]; cbn.
    + destruct t; reflexivity.
    + destruct (ascii_dec a a) as [_|Hn]; [exact IH|contradiction].
  - rewrite error_text_closed. unfold Errors.line. split.
    + intro H. apply (f_equal String.length) in H.
      rewrite string_length_append in H.
      destruct (Errors.given (details e)) as [|d ?];
        destruct (Errors.given (suggestion e)) as [|s ?];
        try (split; reflexivity); exfalso;
        cbn in H; rewrite ?string_length_append in H; cbn in H; lia.
    + intros [-> ->]. cbn. apply append_empty_r.
Qed.

(** *** A cell of a table *)

(** X18: the cell [_format_value] makes of a string is never wider than 50
    characters, counted as characters and not as bytes: a string of at most
    50 characters is shown as it is, a longer one as its first 47 characters
    followed by three dots, which is exactly 50 characters. *)
Theorem format_value_width (str_of_float : Q -> string) (s : string) :
  len (Output._format_value str_of_float (JStr s)) = Nat.min (len s) 50
  /\ (Output._format_value str_of_float (JStr s) = s <-> (len s <= 50)%nat)
  /\ (Output._format_value str_of_float (JStr s) = s
      \/ (Output._format_value str_of_float (JStr s) = (slice_to 47 s ++ "...")%string
          /\ len (slice_to 47 s) = 47%nat
          /\ prefix (slice_to 47 s) s = true)).
Proof.
  cbn [Output._format_value].
  destruct (50 <? len s)%nat eqn:E.
  - apply Nat.ltb_lt in E.
    assert (H47 : len (slice_to 47 s) = 47%nat) by (apply len_slice_to_full; lia).
    split; [|split].
    + rewrite len_append, H47. cbn [len is_continuation andb negb]. lia.
    + split; [|lia]. intro H. apply (f_equal len) in H.
      rewrite len_append, H47 in H. cbn [len is_continuation andb negb] in H. lia.
    + right. split; [reflexivity|]. split; [exact H47|apply slice_to_prefix].
  - apply Nat.ltb_ge in E. split; [lia|].
    split; [|left; reflexivity]. split; [intros _; exact E|reflexivity].
Qed.

(** *** The [send] command *)




Lemma chat_completions_times_out (a : args) (w : world) (submit : exchange)
    (r c : json) (polls rest : list exchange) :
  (0 <= initial_delay a)%Q ->
  answer submit = inr r ->
  issued_id r = Some c ->
  forallb continues polls = true ->
  retries_among polls <= max_retries a ->
  in_time (timeout a) 0 polls ->
  (inject_Z (timeout a) <= elapsed polls)%Q ->
  fst (chat_completions a (submit :: polls ++ rest) w) = Raise (timed_out (timeout a)).
Proof.
  intros Hd Hs Hid Hc Hb Ht Hlate.
  rewrite (chat_completions_loop a submit _ _ r c Hs Hid Hd).
  set (w0 := at_loop_start a submit w).
  destruct (poll_loop_skip (timeout a) (max_retries a) c (now w0) rest
              polls 0 w0 0%Q Hc Hb Ht) as [Hl Hq]; try lra.
  rewrite Hl, poll_loop_late; [reflexivity|]. apply Qltb_ge. rewrite Hq. lra.
Qed.

Lemma send_on_timeout (markup_error : string -> option string)
    (text : string) (conv model app : option string) (T : Z)
    (network : list exchange) (w : world) :
  fst (chat_completions (async_args text conv app model T) network w)
  = Raise (timed_out T) ->
  fst (Cli.send markup_error text conv model app T network w)
  = (Cli.mkConsole []
       ["[red]Error:[/red] Chat timed out"%string;
        ("[dim]Suggestion: The chat did not complete within " ++ str_of_int T
         ++ " seconds.[/dim]")%string],
     Cli.Exit 1).
Proof.
  unfold Cli.send, chat_async.
  destruct (chat_completions _ network w) as [g w'].
  cbn [fst]. intros ->. cbn [aggregate collect isinstance timed_out mkTimeoutError cls
                              issubclass exn_class_eqb orb fst].
  unfold Cli.report, Errors.given. cbn [suggestion message timed_out mkTimeoutError].
  destruct (_ =? EmptyString)%string eqn:E.
  - apply String.eqb_eq in E. discriminate.
  - cbn. rewrite string_append_assoc. reflexivity.
Qed.

(** X20: when the chat times out, [send] exits with status 1 after printing
    two lines on standard error, the error [Chat timed out] and the
    suggestion that names the timeout given on the command line, and nothing
    on standard output.  The chat times out when the submission succeeds,
    every poll begun within the timeout is answered by a reply that is not
    final or by one of at most ten session-not-found failures, and the loop
    test that follows finds the timeout used up. *)
Theorem send_reports_timeout (markup_error : string -> option string)
    (text : string) (conv model app : option string) (T : Z)
    (w : world) (submit : exchange) (r c : json) (polls rest : list exchange) :
  answer submit = inr r ->
  issued_id r = Some c ->
  forallb continues polls = true ->
  retries_among polls <= 10 ->
  in_time T 0 polls ->
  (inject_Z T <= elapsed polls)%Q ->
  fst (Cli.send markup_error text conv model app T (submit :: polls ++ rest) w)
  = (Cli.mkConsole []
       ["[red]Error:[/red] Chat timed out"%string;
        ("[dim]Suggestion: The chat did not complete within " ++ str_of_int T
         ++ " seconds.[/dim]")%string],
     Cli.Exit 1).
Proof.
  intros Hs Hid Hc Hb Ht Hlate. apply send_on_timeout.
  exact (chat_completions_times_out (async_args text conv app model T) w submit r c
           polls rest (async_delay _ _ _ _ _) Hs Hid Hc Hb Ht Hlate).
Qed.

Lemma send_reports_timeout_witness :
  fst (Cli.send (fun _ => None) "hello" None None None 1
         (submit_ok "c1" :: [poll_pending 0] ++ [poll_final 0 "X"]) (mkWorld 0 []))
  = (Cli.mkConsole []
       ["[red]Error:[/red] Chat timed out"%string;
        ("[dim]Suggestion: The chat did not complete within " ++ str_of_int 1
         ++ " seconds.[/dim]")%string],
     Cli.Exit 1).
Proof.
  apply (send_reports_timeout (fun _ => None) "hello" None None None 1 (mkWorld 0 [])
           (submit_ok "c1") (envelope (JDict [("conv_id", JStr "c1")])) (JStr "c1")
           [poll_pending 0] [poll_final 0 "X"]).
  - reflexivity.
  - reflexivity.
  - reflexivity.
  - vm_compute. discriminate.
  - repeat split; vm_compute; reflexivity.
  - vm_compute. discriminate.
Defined.
